(** * pic-tool: the batch image normaliser of [app.js]

    A shallow embedding of the processing core of [app.js]
    ([ImageAnalyzer], [ImageProcessor], [BatchProcessor], [ZipExporter])
    and the properties its specification states about it.

    Modelling conventions.
    - JavaScript numbers that hold pixel counts and byte sizes are integers
      ([Z]).  The scale ratio of [resize] and the encoder quality of
      [compress] are IEEE binary64 numbers ([float]), as in the source:
      every division, product and sum on them rounds as the processor
      does, and a decimal literal such as [0.1] denotes the nearest
      double.
    - The browser (image loading, canvas encoding) is an interface,
      [Browser]; every definition is parametric in it.
    - [async] functions run strictly one after the other, so [await] is
      sequencing.  A computation is a value or a thrown JavaScript value,
      together with the list of effects it performed, in order. *)

From Stdlib Require Import PrimInt63.
From Stdlib Require Uint63.
From Stdlib Require Import ZArith QArith Qround Lqa String Ascii List Lia Bool.
From Stdlib Require Import Floats.
From stdpp Require Import base option list strings gmap fin_maps.

Local Open Scope Z_scope.

(** A decimal literal that is not a double itself stands for the nearest
    double, as in JavaScript. *)
#[local] Set Warnings "-inexact-float".

(** ** Configuration constants ([CONFIG]) *)

Module CONFIG.
Definition maxWidth : Z := 750.
Definition maxHeight : Z := 750.
Definition maxSizeKB : Z := 800.
Definition maxSizeBytes : Z := 800 * 1024.
Definition supportedTypes : list string :=
  ["image/png"; "image/jpeg"; "image/webp"; "image/avif"]%string.
Definition outputFormat : string := "image/jpeg".
Definition outputExtension : string := ".jpg".
End CONFIG.

(** ** Data model *)

(** A [File] of the browser: its name, declared MIME type and byte size. *)
Record File := mkFile {
  file_name : string;
  file_type : string;
  file_size : Z
}.

(** A [Blob] produced by the canvas encoder. *)
Record Blob := mkBlob {
  blob_size : Z;
  blob_type : string
}.

(** What a result's [processedBlob] refers to: a [File] is a [Blob] in the
    browser, and the skip path of [process] stores the original file there. *)
Inductive BlobValue :=
| OfFile (f : File)
| OfEncoder (b : Blob).

(** The object [ImageAnalyzer.analyze] resolves to. *)
Record ImageInfo := mkImageInfo {
  info_file : File;
  info_width : Z;
  info_height : Z;
  info_size : Z;
  info_previewUrl : string;
  info_needsProcessing : bool
}.

(** The user configuration [{ format, maxSizeKB, extension }]; a field that
    is missing is [None]. *)
Record UserConfig := mkUserConfig {
  cfg_format : option string;
  cfg_maxSizeKB : option Z;
  cfg_extension : option string
}.

(** A loaded [HTMLImageElement]. *)
Record Image := mkImage {
  img_src : string;
  naturalWidth : Z;
  naturalHeight : Z
}.

(** A canvas: its size and the source of the picture drawn on it. *)
Record Canvas := mkCanvas {
  canvas_width : Z;
  canvas_height : Z;
  canvas_drawn : string
}.

(** A result object.  The two object shapes of the source (a result of
    [process] and the failure object of [processAll]) share one record; a
    property that an object does not have, or whose value is [undefined],
    is [None]. *)
Record ProcessingResult := mkResult {
  originalFile : File;
  processedBlob : option BlobValue;
  finalWidth : option Z;
  finalHeight : option Z;
  finalSize : option Z;
  wasProcessed : bool;
  outputFileName : option string;
  error : option string
}.

(** The argument of the progress callback.  [progress_results] is the
    content of the shared [results] array at the time of the call. *)
Record BatchProgress := mkProgress {
  progress_total : Z;
  progress_completed : Z;
  progress_current : string;
  progress_results : list ProcessingResult
}.

(** ** JavaScript values that can be thrown *)

(** An [Error] object carries a [message]; the event object that the
    browser hands to an [onerror] handler has no such property. *)
Inductive Thrown :=
| JsError (error_name : string) (error_message : string)
| DomEvent (event_type : string).

(** [error.message]: [None] is [undefined]. *)
Definition message_of (e : Thrown) : option string :=
  match e with
  | JsError _ m => Some m
  | DomEvent _ => None
  end.

(** The [TypeError] of reading [.size] from [null]. *)
Definition null_size_error : Thrown :=
  JsError "TypeError" "Cannot read properties of null (reading 'size')".

(** ** ImageAnalyzer.needsProcessing *)

Definition needsProcessing (info : ImageInfo) : bool :=
  negb (info_width info =? CONFIG.maxWidth) ||
  (info_size info >? CONFIG.maxSizeBytes).

(** An info object as the specification writes it: [{width: w, size: s}]. *)
Definition info_of (w s : Z) : ImageInfo :=
  mkImageInfo (mkFile "" "" s) w 0 s "" false.

(** ** JavaScript helpers *)

(** [a || b] on strings: the empty string and [undefined] are falsy. *)
Definition or_string (a : option string) (b : string) : string :=
  match a with
  | Some EmptyString => b
  | Some s => s
  | None => b
  end.

(** [a || b] on numbers: [0] and [undefined] are falsy. *)
Definition or_number (a : option Z) (b : Z) : Z :=
  match a with
  | Some 0 => b
  | Some n => n
  | None => b
  end.

(** [s.lastIndexOf(c)] for a one-character search string: the index of the
    last occurrence of [c] in [s], or [-1]. *)
Fixpoint lastIndexOf_from (c : ascii) (s : string) (i : Z) (found : Z) : Z :=
  match s with
  | EmptyString => found
  | String a s' =>
      lastIndexOf_from c s' (i + 1) (if Ascii.eqb a c then i else found)
  end.

Definition lastIndexOf (s : string) (c : ascii) : Z :=
  lastIndexOf_from c s 0 (-1).

(** [s.substring(a, b)]: both indices are clamped to [0 .. length], and
    swapped when [a > b]. *)
Definition clamp_index (s : string) (i : Z) : Z :=
  Z.max 0 (Z.min i (Z.of_nat (String.length s))).

Definition substring (s : string) (a b : Z) : string :=
  let a' := clamp_index s a in
  let b' := clamp_index s b in
  let lo := Z.min a' b' in
  let hi := Z.max a' b' in
  String.substring (Z.to_nat lo) (Z.to_nat (hi - lo)) s.

(** ** JavaScript numbers *)

(** The double that holds an integer: the integer itself up to [2^53] in
    magnitude, the nearest double beyond. *)
Definition Number (z : Z) : float :=
  SF2Prim (binary_normalize prec emax z 0 false).

(** A finite double [x] other than zero is [mantissa * 2^exponent] for two
    integers: [frshiftexp x] is a double [m] of [[1/2, 1)] with an integer
    [e] such that [|x| = m * 2^(e - shift)], and [normfr_mantissa m] is
    the integer [m * 2^prec]. *)
Definition integer_parts (x : float) : Z * Z :=
  let (m, e) := frshiftexp x in
  let mantissa := Uint63.to_Z (normfr_mantissa m) in
  (if PrimFloat.get_sign x then - mantissa else mantissa,
   Uint63.to_Z e - (FloatOps.shift + FloatOps.prec)).

(** [NaN] and the infinities, or zero: [Math.floor] and [Math.round]
    return these unchanged.  The model has 0 for all of them, which is
    also what a canvas dimension becomes when it is set to [NaN] or to an
    infinity. *)
Definition no_integer_parts (x : float) : bool :=
  PrimFloat.is_nan x || PrimFloat.is_infinity x || PrimFloat.is_zero x.

(** [Math.floor] *)
Definition Math_floor (x : float) : Z :=
  if no_integer_parts x then 0
  else
    let (mantissa, exponent) := integer_parts x in
    if 0 <=? exponent then Z.shiftl mantissa exponent
    else Z.shiftr mantissa (- exponent).

(** [Math.round]: the nearest integer, a tie going up, that is
    [floor (x + 1/2)] with the sum taken exactly. *)
Definition Math_round (x : float) : Z :=
  if no_integer_parts x then 0
  else
    let (mantissa, exponent) := integer_parts x in
    if 0 <=? exponent then Z.shiftl mantissa exponent
    else Z.shiftr (2 * mantissa + Z.shiftl 1 (- exponent)) (- exponent + 1).

(** [a <= b] on numbers. *)
Definition Number_le (a b : float) : Prop := (a <=? b)%float = true.

(** The first three lines of [process]: a field of the user configuration,
    or the default of [CONFIG] when the field is missing or falsy. *)
Definition outputFormat_of (userConfig : UserConfig) : string :=
  or_string (cfg_format userConfig) CONFIG.outputFormat.

Definition maxSizeKB_of (userConfig : UserConfig) : Z :=
  or_number (cfg_maxSizeKB userConfig) CONFIG.maxSizeKB.

Definition outputExtension_of (userConfig : UserConfig) : string :=
  or_string (cfg_extension userConfig) CONFIG.outputExtension.

(** ** Effects and computations *)

Inductive Effect :=
| ImageLoad (src : string)
| DrawImage (src : string) (w h : Z)
| ToBlob (c : Canvas) (format : string) (quality : option float)
| OnProgress (p : BatchProgress).

(** A computation of the program: what it returned or threw, and the
    effects it performed. *)
Definition Js (A : Type) : Type := ((Thrown + A) * list Effect)%type.

Definition ret {A} (a : A) : Js A := (inr a, []).

Definition throw {A} (e : Thrown) : Js A := (inl e, []).

Definition perform (ev : Effect) : Js unit := (inr tt, [ev]).

Definition bind {A B} (m : Js A) (k : A -> Js B) : Js B :=
  match m with
  | (inl e, tr) => (inl e, tr)
  | (inr a, tr) => let '(r, tr') := k a in (r, tr ++ tr')
  end.

(** [try { m } catch (e) { handler e }] *)
Definition try_catch {A} (m : Js A) (handler : Thrown -> Js A) : Js A :=
  match m with
  | (inl e, tr) => let '(r, tr') := handler e in (r, tr ++ tr')
  | (inr a, tr) => (inr a, tr)
  end.

Declare Scope js_scope.
Delimit Scope js_scope with js.
Notation "x <- m ;; k" := (bind m (fun x => k))
  (at level 100, m at next level, right associativity) : js_scope.
Notation "m ;;; k" := (bind m (fun _ => k))
  (at level 100, right associativity) : js_scope.
Local Open Scope js_scope.

Definition outcome {A} (m : Js A) : Thrown + A := fst m.
Definition effects {A} (m : Js A) : list Effect := snd m.

(** [blob.size], a [TypeError] when [blob] is [null]. *)
Definition size_of (blob : option Blob) : Js Z :=
  match blob with
  | Some b => ret (blob_size b)
  | None => throw null_size_error
  end.

(** ** The browser *)

(** Loading [img.src = url]: [onload] fires and the intrinsic size is
    known, or [onerror] fires with the browser's event. *)
Inductive LoadOutcome :=
| Loaded (width height : Z)
| LoadFailed (ev : Thrown).

(** [canvas.toBlob(callback, format, quality)]: the callback receives a
    blob, or [null] when the picture cannot be encoded; the call itself can
    throw. *)
Inductive EncodeOutcome :=
| Encoded (b : Blob)
| EncodedNull
| EncodeThrew (e : Thrown).

Class Browser := {
  loadImage : string -> LoadOutcome;
  toBlob : Canvas -> string -> option float -> EncodeOutcome
}.

Section Processing.
Context {browser : Browser}.

(** [await new Promise(resolve => canvas.toBlob(blob => resolve(blob),
    format, quality))] *)
Definition canvas_toBlob (canvas : Canvas) (format : string)
    (quality : option float) : Js (option Blob) :=
  perform (ToBlob canvas format quality) ;;;
  match toBlob canvas format quality with
  | Encoded b => ret (Some b)
  | EncodedNull => ret None
  | EncodeThrew e => throw e
  end.

(** [await new Promise((resolve, reject) => { img.onload = resolve;
    img.onerror = reject; img.src = url })]: a failure rejects with the
    very value the handler was called with. *)
Definition await_load (url : string) : Js Image :=
  perform (ImageLoad url) ;;;
  match loadImage url with
  | Loaded w h => ret (mkImage url w h)
  | LoadFailed ev => throw ev
  end.

(** *** ImageProcessor.resize *)

(** [maxHeight] is not used, as the source says of this parameter.  The
    source does not guard against a width of 0, and neither is the model
    meant for it. *)
Definition resize (image : Image) (targetWidth maxHeight : Z) : Js Canvas :=
  let width := naturalWidth image in
  let height := naturalHeight image in
  let ratio := (Number targetWidth / Number width)%float in
  let newWidth := targetWidth in
  let newHeight := Math_round (Number height * ratio)%float in
  perform (DrawImage (img_src image) newWidth newHeight) ;;;
  ret (mkCanvas newWidth newHeight (img_src image)).

(** *** ImageProcessor.compress *)

(** The [for (let i = 0; i < 10; i++)] loop, [rounds] iterations of it;
    it returns the three loop variables. *)
Fixpoint compress_rounds (rounds : nat) (canvas : Canvas) (format : string)
    (maxSizeBytes : Z) (minQuality maxQuality : float)
    (bestBlob : option Blob) : Js (float * float * option Blob) :=
  match rounds with
  | O => ret (minQuality, maxQuality, bestBlob)
  | S rounds' =>
      let midQuality := ((minQuality + maxQuality) / 2)%float in
      blob <- canvas_toBlob canvas format (Some midQuality) ;;
      sz <- size_of blob ;;
      if sz <=? maxSizeBytes
      then compress_rounds rounds' canvas format maxSizeBytes
             midQuality maxQuality blob
      else compress_rounds rounds' canvas format maxSizeBytes
             minQuality midQuality bestBlob
  end.

(** [!bestBlob || bestBlob.size > maxSizeBytes] *)
Definition still_too_big (bestBlob : option Blob) (maxSizeBytes : Z) : bool :=
  match bestBlob with
  | None => true
  | Some b => blob_size b >? maxSizeBytes
  end.

Definition compress (canvas : Canvas) (maxSizeKB : Z) (format : string)
    : Js (option Blob) :=
  let maxSizeBytes := maxSizeKB * 1024 in
  if String.eqb format "image/png"
  then canvas_toBlob canvas format None
  else
    let minQuality := 0.1%float in
    let maxQuality := 1.0%float in
    bestBlob <- canvas_toBlob canvas format (Some maxQuality) ;;
    sz <- size_of bestBlob ;;
    if sz <=? maxSizeBytes
    then ret bestBlob
    else
      st <- compress_rounds 10 canvas format maxSizeBytes
              minQuality maxQuality bestBlob ;;
      let '(minQuality, maxQuality, bestBlob) := st in
      if still_too_big bestBlob maxSizeBytes
      then canvas_toBlob canvas format (Some minQuality)
      else ret bestBlob.

(** *** ImageProcessor.process *)

(** [originalName.substring(0, originalName.lastIndexOf('.'))
    || originalName] *)
Definition baseName (originalName : string) : string :=
  or_string
    (Some (substring originalName 0 (lastIndexOf originalName ".")))
    originalName.

Definition process (imageInfo : ImageInfo) (userConfig : UserConfig)
    : Js ProcessingResult :=
  let outputFormat := outputFormat_of userConfig in
  let maxSizeKB := maxSizeKB_of userConfig in
  let outputExtension := outputExtension_of userConfig in
  let needsFormatConversion :=
    negb (String.eqb (file_type (info_file imageInfo)) outputFormat) in
  let needsSizeCompression := info_size imageInfo >? maxSizeKB * 1024 in
  if negb (info_needsProcessing imageInfo) && negb needsFormatConversion
     && negb needsSizeCompression
  then
    ret {| originalFile := info_file imageInfo;
           processedBlob := Some (OfFile (info_file imageInfo));
           finalWidth := Some (info_width imageInfo);
           finalHeight := Some (info_height imageInfo);
           finalSize := Some (info_size imageInfo);
           wasProcessed := false;
           outputFileName := Some (file_name (info_file imageInfo));
           error := None |}
  else
    img <- await_load (info_previewUrl imageInfo) ;;
    canvas <- resize img CONFIG.maxWidth CONFIG.maxHeight ;;
    blob <- compress canvas maxSizeKB outputFormat ;;
    let originalName := file_name (info_file imageInfo) in
    let outputFileName := (baseName originalName ++ outputExtension)%string in
    sz <- size_of blob ;;
    ret {| originalFile := info_file imageInfo;
           processedBlob := OfEncoder <$> blob;
           finalWidth := Some (canvas_width canvas);
           finalHeight := Some (canvas_height canvas);
           finalSize := Some sz;
           wasProcessed := true;
           outputFileName := Some outputFileName;
           error := None |}.

(** *** BatchProcessor.processAll *)

(** The object pushed in the [catch] block. *)
Definition failure_result (imageInfo : ImageInfo) (thrown : Thrown)
    : ProcessingResult :=
  {| originalFile := info_file imageInfo;
     processedBlob := None;
     finalWidth := None;
     finalHeight := None;
     finalSize := None;
     wasProcessed := false;
     outputFileName := None;
     error := message_of thrown |}.

(** The loop of [processAll] from index [i] on: [rest] holds
    [images[i..]] and [results] the array built so far. *)
Fixpoint processAll_from (rest : list ImageInfo) (userConfig : UserConfig)
    (total : Z) (i : Z) (results : list ProcessingResult)
    : Js (list ProcessingResult) :=
  match rest with
  | [] => ret results
  | imageInfo :: rest' =>
      perform (OnProgress
        {| progress_total := total;
           progress_completed := i;
           progress_current := file_name (info_file imageInfo);
           progress_results := results |}) ;;;
      results' <-
        try_catch
          (result <- process imageInfo userConfig ;;
           ret (results ++ [result]))
          (fun thrown => ret (results ++ [failure_result imageInfo thrown])) ;;
      perform (OnProgress
        {| progress_total := total;
           progress_completed := i + 1;
           progress_current := file_name (info_file imageInfo);
           progress_results := results' |}) ;;;
      processAll_from rest' userConfig total (i + 1) results'
  end.

Definition processAll (images : list ImageInfo) (userConfig : UserConfig)
    : Js (list ProcessingResult) :=
  processAll_from images userConfig (Z.of_nat (length images)) 0 [].

End Processing.

(** ** The batch, item by item *)

Section Batch.
Context {browser : Browser}.

(** What the [try]/[catch] of [processAll] appends for one item: the
    result of [process], or the failure object when [process] threw. *)
Definition item_result (userConfig : UserConfig) (imageInfo : ImageInfo)
    : ProcessingResult :=
  match outcome (process imageInfo userConfig) with
  | inr result => result
  | inl thrown => failure_result imageInfo thrown
  end.

(** The effects of the loop from index [i] on: for each item a call of
    the progress callback, the effects of [process], and a second call
    of the callback. *)
Fixpoint batch_effects (userConfig : UserConfig) (total i : Z)
    (results : list ProcessingResult) (rest : list ImageInfo)
    : list Effect :=
  match rest with
  | [] => []
  | imageInfo :: rest' =>
      let results' := results ++ [item_result userConfig imageInfo] in
      OnProgress (mkProgress total i
                    (file_name (info_file imageInfo)) results)
      :: effects (process imageInfo userConfig)
      ++ OnProgress (mkProgress total (i + 1)
                       (file_name (info_file imageInfo)) results')
      :: batch_effects userConfig total (i + 1) results' rest'
  end.
End Batch.

(** The [completed] counts of the callbacks of [n] items from index [i]. *)
Fixpoint completed_counts (i : Z) (n : nat) : list Z :=
  match n with
  | O => []
  | S n' => i :: (i + 1) :: completed_counts (i + 1) n'
  end.

(** The calls of the progress callback in a list of effects. *)
Definition emissions (tr : list Effect) : list BatchProgress :=
  omap (fun ev => match ev with OnProgress p => Some p | _ => None end) tr.

(** A computation that does not call the progress callback. *)
Definition silent {A} (m : Js A) : Prop := emissions (effects m) = [].

(** The encoder calls in a list of effects: format and quality argument. *)
Definition encodes (tr : list Effect) : list (string * option float) :=
  omap (fun ev => match ev with ToBlob _ f q => Some (f, q) | _ => None end) tr.

(** ** ZipExporter *)

(** The content of a JSZip archive, as far as the exporter fills it: for
    each folder name given to [zip.folder], the files put into that
    folder, by name.  [zip.folder(name)] creates the folder when it is not
    there, and [folder.file(name, content)] adds the entry or replaces
    the entry of that name, as the [Map]s of the test double do.  The
    directory entries that JSZip adds for the parents of a nested folder
    such as [trip/day1] are not part of the model, and neither is its
    reading of two folder names that differ by a final ['/'] as one
    folder: the properties below speak of the files of a folder that was
    named, not of which folders exist. *)
Abbreviation Archive := (gmap string (gmap string BlobValue)).

Definition zip_folder (name : string) (zip : Archive) : Archive :=
  match zip !! name with
  | Some _ => zip
  | None => <[name := ∅]> zip
  end.

Definition folder_file (folder fileName : string) (content : BlobValue)
    (zip : Archive) : Archive :=
  <[folder := <[fileName := content]> (default ∅ (zip !! folder))]> zip.

(** [result.outputFileName || result.originalFile.name] *)
Definition entry_name (result : ProcessingResult) : string :=
  or_string (outputFileName result) (file_name (originalFile result)).

(** The body of [for (const result of results)]. *)
Definition add_result (folder : string) (zip : Archive)
    (result : ProcessingResult) : Archive :=
  match processedBlob result with
  | Some blob => folder_file folder (entry_name result) blob zip
  | None => zip
  end.

Definition createZip (results : list ProcessingResult) (folderName : string)
    : Archive :=
  fold_left (add_result folderName) results (zip_folder folderName ∅).

(** [resultsByFolder] is a [Map], iterated in insertion order. *)
Definition createZipWithFolders
    (resultsByFolder : list (string * list ProcessingResult)) : Archive :=
  fold_left
    (fun zip entry =>
       fold_left (add_result (fst entry)) (snd entry)
         (zip_folder (fst entry) zip))
    resultsByFolder ∅.

(** The files of a folder of an archive; none when the folder is absent. *)
Definition files_of (zip : Archive) (folder : string) : gmap string BlobValue :=
  default ∅ (zip !! folder).

(** The name and content pairs that the loop hands to [folder.file], in
    order: one for each result whose [processedBlob] is not [null]. *)
Definition entries_of (results : list ProcessingResult)
    : list (string * BlobValue) :=
  omap (fun result =>
          match processedBlob result with
          | Some blob => Some (entry_name result, blob)
          | None => None
          end) results.

(** The number of entries of a folder of an archive. *)
Definition entry_count (zip : Archive) (folder : string) : nat :=
  size (files_of zip folder).

(** ** The compression search as the specification words it *)

(** The search state of the specification: the quality bounds and the best
    blob recorded so far, [None] before any round has met the budget. *)
Record SearchState := mkSearch {
  st_min : float;
  st_max : float;
  st_best : option Blob
}.

Definition spec_initial : SearchState := mkSearch 0.1 1.0 None.

Definition spec_mid (s : SearchState) : float :=
  ((st_min s + st_max s) / 2)%float.

(** One round: encode at the midpoint; within budget, record the blob and
    raise the lower bound, else lower the upper bound. *)
Definition spec_round (enc : float -> Blob) (budget : Z) (s : SearchState)
    : SearchState :=
  let blob := enc (spec_mid s) in
  if blob_size blob <=? budget
  then mkSearch (spec_mid s) (st_max s) (Some blob)
  else mkSearch (st_min s) (spec_mid s) (st_best s).

(** The state after [k] rounds. *)
Definition spec_state (enc : float -> Blob) (budget : Z) (k : nat)
    : SearchState :=
  Nat.iter k (spec_round enc budget) spec_initial.

(** The [bestBlob] variable of the source when the search is in state [s]:
    before a round has met the budget it still holds the blob of the first
    encode, at quality 1. *)
Definition bestBlob_at (enc : float -> Blob) (s : SearchState)
    : option Blob :=
  Some (default (enc 1.0%float) (st_best s)).

(** The encoder call of round [k] (from 0) of a search started in [s]. *)
Definition round_call (canvas : Canvas) (format : string)
    (enc : float -> Blob) (budget : Z) (s : SearchState) (k : nat) : Effect :=
  ToBlob canvas format (Some (spec_mid (Nat.iter k (spec_round enc budget) s))).

(** What the search has recorded fits the budget, and while nothing is
    recorded the lower bound is still the floor. *)
Definition search_invariant (budget : Z) (s : SearchState) : Prop :=
  (forall b, st_best s = Some b -> blob_size b <= budget) /\
  (st_best s = None -> st_min s = 0.1%float).

(** The bounds that the search can have after [k] rounds, whatever the
    encoder answers: each round moves one of the two bounds to their
    midpoint. *)
Definition narrowed (bounds : float * float) : list (float * float) :=
  let mid := ((fst bounds + snd bounds) / 2)%float in
  [(mid, snd bounds); (fst bounds, mid)].

Fixpoint search_bounds (k : nat) : list (float * float) :=
  match k with
  | O => [(0.1%float, 1.0%float)]
  | S k' => flat_map narrowed (search_bounds k')
  end.

(** ** The scaling as the specification words it *)

(** [round (x)] on an exact number: the nearest integer, a tie going
    up. *)
Definition round_half_up (x : Q) : Z := Qfloor (x + (1 # 2))%Q.

(** [resize] with [newHeight = round (height * targetWidth / width)] taken
    in exact arithmetic, as the formula of the specification reads, where
    the source rounds the quotient and the product to doubles. *)
Definition resize_exact (image : Image) (targetWidth maxHeight : Z)
    : Js Canvas :=
  let width := naturalWidth image in
  let height := naturalHeight image in
  let ratio := (inject_Z targetWidth / inject_Z width)%Q in
  let newWidth := targetWidth in
  let newHeight := round_half_up (inject_Z height * ratio)%Q in
  perform (DrawImage (img_src image) newWidth newHeight) ;;;
  ret (mkCanvas newWidth newHeight (img_src image)).

(** ** File names as the specification words them *)

(** Everything before the last ['.'] of a name; [None] when the name has
    no ['.']. *)
Fixpoint before_last_dot (s : string) : option string :=
  match s with
  | EmptyString => None
  | String a s' =>
      match before_last_dot s' with
      | Some p => Some (String a p)
      | None => if Ascii.eqb a "." then Some EmptyString else None
      end
  end.

(** ** Browsers for the examples *)

(** The encoder of the size-controlled canvas of the [ImageProcessor]
    tests: a PNG blob has [baseSizeBytes] bytes, a blob of another format
    [floor (baseSizeBytes * quality)], the quality defaulting to 0.92. *)
Definition mock_toBlob (baseSizeBytes : Z) (canvas : Canvas) (format : string)
    (quality : option float) : EncodeOutcome :=
  let size :=
    if String.eqb format "image/png" then baseSizeBytes
    else Math_floor (Number baseSizeBytes * default 0.92 quality)%float in
  Encoded (mkBlob size format).

(** That encoder, with the [MockImage] of the test setup, which always
    loads and is 1000 by 800. *)
Definition mock_browser (baseSizeBytes : Z) : Browser :=
  {| loadImage := fun _ => Loaded 1000 800;
     toBlob := mock_toBlob baseSizeBytes |}.

(** A browser in which the picture at [bad] does not load: its [onerror]
    handler is called with an [error] event. *)
Definition browser_with_broken_image (bad : string) (baseSizeBytes : Z)
    : Browser :=
  {| loadImage := fun url =>
       if String.eqb url bad then LoadFailed (DomEvent "error")
       else Loaded 1000 800;
     toBlob := mock_toBlob baseSizeBytes |}.

(** An encoder whose blob has [low] bytes up to the quality [threshold]
    and [high] bytes above it. *)
Definition stepped_size (threshold : float) (low high : Z) (quality : float)
    : Z :=
  if (quality <=? threshold)%float then low else high.

Definition browser_with_step (threshold : float) (low high : Z) : Browser :=
  {| loadImage := fun _ => Loaded 1000 800;
     toBlob := fun _ format quality =>
       Encoded (mkBlob (stepped_size threshold low high
                         (default 0.92%float quality))
                  format) |}.

(** A browser whose encoder yields [null]. *)
Definition browser_without_encoder : Browser :=
  {| loadImage := fun _ => Loaded 1000 800;
     toBlob := fun _ _ _ => EncodedNull |}.

(** ** Further vocabulary for the properties *)

(** An encoder call on [canvas] in [format] whose quality argument lies
    between the floor 0.1 and 1. *)
Definition quality_call (canvas : Canvas) (format : string) (ev : Effect)
    : Prop :=
  exists q : float,
    ev = ToBlob canvas format (Some q) /\ Number_le 0.1 q /\ Number_le q 1.0.

(** Whether a pair of bounds and their midpoint are qualities between 0.1
    and 1, the midpoint between the bounds.  (Each comparison is made on
    its own: the order of doubles is not assumed transitive.) *)
Definition bounds_in_range (bounds : float * float) : bool :=
  let lo := fst bounds in
  let hi := snd bounds in
  let mid := ((lo + hi) / 2)%float in
  (0.1 <=? lo)%float && (lo <=? 1.0)%float
  && (0.1 <=? mid)%float && (mid <=? 1.0)%float
  && (0.1 <=? hi)%float && (hi <=? 1.0)%float
  && (lo <=? mid)%float && (mid <=? hi)%float.

(** Whether two bounds are in order and at most 0.00088 apart, the
    difference being the one of doubles.  (In exact arithmetic ten
    halvings of [1 - 0.1] leave 0.9 / 1024 = 0.00087890625.) *)
Definition bounds_close (bounds : float * float) : bool :=
  (fst bounds <=? snd bounds)%float
  && (snd bounds - fst bounds <=? 0.00088)%float.

(** The blob of the last result of [results] that has one and whose entry
    name is [name]; [None] when there is no such result. *)
Definition last_blob_named (name : string) (results : list ProcessingResult)
    : option BlobValue :=
  last (omap (fun result =>
                if String.eqb (entry_name result) name
                then processedBlob result
                else None) results).

(** ** UIController: folder paths *)

(** The folder label of files that come without a folder. *)
Definition UNCATEGORIZED : string := "未分类".

(** [s.split(sep)] for a one-character separator: the pieces between the
    separators, at least one piece. *)
Fixpoint split (s : string) (sep : ascii) : list string :=
  match s with
  | EmptyString => [EmptyString]
  | String a s' =>
      if Ascii.eqb a sep then EmptyString :: split s' sep
      else match split s' sep with
           | piece :: pieces => String a piece :: pieces
           | [] => [String a EmptyString]
           end
  end.

(** [parts.join(sep)] *)
Fixpoint join (parts : list string) (sep : string) : string :=
  match parts with
  | [] => EmptyString
  | [part] => part
  | part :: rest => (part ++ sep ++ join rest sep)%string
  end.

(** The folder path that [handleFileInput] gives a selected file, from its
    [webkitRelativePath]: the path without its last component, or the
    default label when the path has a single component. *)
Definition folderPath_of (webkitRelativePath : option string) : string :=
  let relativePath := or_string webkitRelativePath EmptyString in
  let pathParts := split relativePath "/" in
  if (1 <? length pathParts)%nat
  then join (removelast pathParts) "/"
  else UNCATEGORIZED.

(** ** ImageAnalyzer.analyze *)

(** What [analyze] does to the preview URL of a file. *)
Inductive PreviewEffect :=
| CreateObjectURL (file : File) (url : string)
| LoadPreview (url : string)
| RevokeObjectURL (url : string).

Section Analyze.
Context {browser : Browser}.

(** [URL.createObjectURL]: the preview URL the browser makes for a file. *)
Variable createObjectURL : File -> string.

(** [analyze] loads the file as a picture.  When it loads, the promise
    resolves to the info object, its [needsProcessing] property computed
    from the object itself; when it does not, the preview URL is revoked
    and the promise rejects with a new [Error]. *)
Definition analyze (file : File)
    : (Thrown + ImageInfo) * list PreviewEffect :=
  let previewUrl := createObjectURL file in
  match loadImage previewUrl with
  | Loaded width height =>
      let info :=
        mkImageInfo file width height (file_size file) previewUrl false in
      (inr (mkImageInfo file width height (file_size file) previewUrl
              (needsProcessing info)),
       [CreateObjectURL file previewUrl; LoadPreview previewUrl])
  | LoadFailed _ =>
      (inl (JsError "Error" "图片加载失败"),
       [CreateObjectURL file previewUrl; LoadPreview previewUrl;
        RevokeObjectURL previewUrl])
  end.
End Analyze.

(** ** UIController.startProcessing and downloadZip *)

(** An element of [AppState.images]: the info object of [analyze] with the
    [folderPath] property that [processFileList] adds to it. *)
Record ImportedImage := mkImported {
  imported_info : ImageInfo;
  imported_folderPath : string
}.

(** [AppState.resultsByFolder], a [Map] from folder path to an array of
    results, as the list of its entries in insertion order. *)
Abbreviation ResultsByFolder := (list (string * list ProcessingResult)).

(** [if (!map.has(folderPath)) map.set(folderPath, []);
     map.get(folderPath).push(result)] *)
Fixpoint push_result (folderPath : string) (result : ProcessingResult)
    (resultsByFolder : ResultsByFolder) : ResultsByFolder :=
  match resultsByFolder with
  | [] => [(folderPath, [result])]
  | (folder, results) :: rest =>
      if String.eqb folder folderPath
      then (folder, results ++ [result]) :: rest
      else (folder, results) :: push_result folderPath result rest
  end.

(** The folder under which the callback files the result of an image:
    [imageInfo.folderPath || '未分类']. *)
Definition folder_label (image : ImportedImage) : string :=
  or_string (Some (imported_folderPath image)) UNCATEGORIZED.

(** What the progress callback of [startProcessing] does to
    [resultsByFolder] on one call.  When [completed > 0] it files
    [progress.results[completed - 1]] under the folder of
    [imagesToProcess[completed - 1]]; [None] stands for the [TypeError]
    of reading a property of [undefined], were one of the two missing.
    (The callback also writes the folder path into the result object and
    updates the page; neither touches [resultsByFolder].) *)
Definition collect_result (imagesToProcess : list ImportedImage)
    (resultsByFolder : ResultsByFolder) (progress : BatchProgress)
    : option ResultsByFolder :=
  if 0 <? progress_completed progress
  then
    let index := Z.to_nat (progress_completed progress - 1) in
    match progress_results progress !! index, imagesToProcess !! index with
    | Some lastResult, Some imageInfo =>
        Some (push_result (folder_label imageInfo) lastResult resultsByFolder)
    | _, _ => None
    end
  else Some resultsByFolder.

(** The callback over a sequence of calls. *)
Definition collect_results (imagesToProcess : list ImportedImage)
    (calls : list BatchProgress) (resultsByFolder : ResultsByFolder)
    : option ResultsByFolder :=
  fold_left
    (fun collected progress =>
       match collected with
       | Some resultsByFolder =>
           collect_result imagesToProcess resultsByFolder progress
       | None => None
       end)
    calls (Some resultsByFolder).

Section StartProcessing.
Context {browser : Browser}.

(** [startProcessing]: [resultsByFolder] starts as a new [Map], the batch
    runs with the collecting callback, and [AppState.results] receives
    the array that [processAll] returns.  The value is the pair of
    [AppState.results] and [AppState.resultsByFolder]. *)
Definition startProcessing (images : list ImportedImage)
    (userConfig : UserConfig)
    : option (list ProcessingResult * ResultsByFolder) :=
  let run := processAll (map imported_info images) userConfig in
  match outcome run with
  | inr results =>
      match collect_results images (emissions (effects run)) [] with
      | Some resultsByFolder => Some (results, resultsByFolder)
      | None => None
      end
  | inl _ => None
  end.

(** The folder label and the result of an image. *)
Definition filed_result (userConfig : UserConfig) (image : ImportedImage)
    : string * ProcessingResult :=
  (folder_label image, item_result userConfig (imported_info image)).
End StartProcessing.

(** Filing a list of results, each under its folder. *)
Definition group_results (filed : list (string * ProcessingResult))
    : ResultsByFolder :=
  fold_left (fun resultsByFolder entry =>
               push_result (fst entry) (snd entry) resultsByFolder)
    filed [].

(** Every element twice, except the last one. *)
Fixpoint twice_but_last {A} (l : list A) : list A :=
  match l with
  | [] => []
  | [x] => [x]
  | x :: rest => x :: x :: twice_but_last rest
  end.

(** Replacing the files of one folder of an archive by a function of
    them, the folder being created when it is not there. *)
Definition update_folder (folder : string)
    (change : gmap string BlobValue -> gmap string BlobValue)
    (zip : Archive) : Archive :=
  <[folder := change (files_of zip folder)]> zip.

(** Inserting name and content pairs into the files of a folder. *)
Definition insert_entries (entries : list (string * BlobValue))
    (files : gmap string BlobValue) : gmap string BlobValue :=
  fold_left (fun files entry => <[entry.1 := entry.2]> files) entries files.

(** Adding one filed result to its folder of an archive. *)
Definition file_into (zip : Archive) (entry : string * ProcessingResult)
    : Archive :=
  update_folder (fst entry) (insert_entries (entries_of [snd entry])) zip.

(** ** Vocabulary for resize *)

(** [H] is an integer nearest to [n / d]: it is at most one half away. *)
Definition nearest (n d H : Z) : Prop :=
  (2 * H - 1) * d <= 2 * n <= (2 * H + 1) * d.

(** The integers from [lo], [count] of them. *)
Fixpoint Z_range_from (lo : Z) (count : nat) : list Z :=
  match count with
  | O => []
  | S count' => lo :: Z_range_from (lo + 1) count'
  end.

Definition Z_range (lo count : Z) : list Z :=
  Z_range_from lo (Z.to_nat count).

(** Whether [Math.round p] is an integer nearest to [h * t / w], decided
    on machine integers.  The double [p], which must be zero or positive,
    is taken apart as [integer_parts] does, into [M * 2^(e - 2154)] with
    [2154 = shift + prec]; for an exponent [e] from 2094 to 2153, that is
    for [p] between [2^-8] and [2^52], its rounding
    [H = (2 M + 2^k) / 2^(k + 1)] with [k = 2154 - e] fits a machine
    integer, and [H] is compared with [h * t / w] without a division. *)
Definition rounds_to_nearest (t w h : PrimInt63.int) (p : float) : bool :=
  let twice x := PrimInt63.mul 2%uint63 x in
  if PrimFloat.is_zero p then PrimInt63.leb (twice (PrimInt63.mul h t)) w
  else
    let (m, e) := frshiftexp p in
    let M := normfr_mantissa m in
    let k := PrimInt63.sub 2154%uint63 e in
    let H :=
      PrimInt63.lsr
        (PrimInt63.add (PrimInt63.lsl M 1%uint63) (PrimInt63.lsl 1%uint63 k))
        (PrimInt63.add k 1%uint63) in
    negb (PrimFloat.is_nan p) && negb (PrimFloat.is_infinity p)
    && negb (PrimFloat.get_sign p)
    && PrimInt63.leb e 2153%uint63 && PrimInt63.leb 2094%uint63 e
    && PrimInt63.ltb M 18014398509481984%uint63
    && PrimInt63.ltb H 1073741824%uint63
    && PrimInt63.leb (PrimInt63.mul (twice H) w)
         (PrimInt63.add (twice (PrimInt63.mul h t)) w)
    && PrimInt63.leb (twice (PrimInt63.mul h t))
         (PrimInt63.mul (PrimInt63.add (twice H) 1%uint63) w).

(** The same for every width of [widths] and height of [heights], with
    [p] the double that [resize] rounds: [h * (t / w)]. *)
Definition heights_nearest (targetWidth : Z) (widths heights : list Z)
    : bool :=
  let t := Uint63.of_Z targetWidth in
  let numbered := map (fun h => (Uint63.of_Z h, Number h)) heights in
  forallb
    (fun w =>
       let ratio := (Number targetWidth / Number w)%float in
       let w' := Uint63.of_Z w in
       forallb
         (fun h => rounds_to_nearest t w' (fst h) (snd h * ratio)%float)
         numbered)
    widths.

(** ** Names that the archive keeps apart *)

(** The archive model keeps the files of every folder name apart.  JSZip
    keeps one table of paths: a folder name with a final ['/'] is the
    folder without it, and a file name with a ['/'] in it lands in a
    sub-folder.  Neither occurs for the names of files on a disk and the
    folder paths made of them. *)
Definition has_slash (s : string) : bool :=
  existsb (Ascii.eqb "/") (list_ascii_of_string s).

Definition ends_with_slash (s : string) : bool :=
  match last (list_ascii_of_string s) with
  | Some c => Ascii.eqb c "/"
  | None => false
  end.

(** A folder name and results whose paths JSZip keeps apart from those
    of other folders. *)
Definition plain_names (folder : string) (results : list ProcessingResult)
    : Prop :=
  ends_with_slash folder = false /\
  Forall (fun result => has_slash (entry_name result) = false) results.

(** * Properties *)

(** ** needsProcessing *)

(** C5: [needsProcessing] is true exactly when the width differs from 750
    or the byte size exceeds 800 * 1024; a width on either side of 750
    makes it true, and 750 wide with exactly 800 * 1024 bytes makes it
    false. *)
Theorem needsProcessing_iff :
  (forall w s : Z,
     needsProcessing (info_of w s) = true <-> (w <> 750 \/ s > 800 * 1024)) /\
  (forall w s : Z,
     needsProcessing (info_of w s) = true
     <-> (w < 750 \/ 750 < w \/ 800 * 1024 < s)) /\
  needsProcessing (info_of 750 (800 * 1024)) = false.
Proof.
  assert (Hiff : forall w s : Z,
    needsProcessing (info_of w s) = true <-> (w <> 750 \/ s > 800 * 1024)).
  { intros w s. unfold needsProcessing, info_of, CONFIG.maxWidth,
      CONFIG.maxSizeBytes; cbn [info_width info_size].
    rewrite orb_true_iff, negb_true_iff, Z.eqb_neq, Z.gtb_gt. reflexivity. }
  split; [exact Hiff|]. split; [|reflexivity].
  intros w s. rewrite Hiff. lia.
Qed.

(** The predicate reads only the width and the size of its argument. *)
Lemma needsProcessing_fields (info : ImageInfo) :
  needsProcessing info = needsProcessing (info_of (info_width info) (info_size info)).
Proof. reflexivity. Qed.

(** ** process: the skip path *)

(** C7: an item that does not need processing, whose declared type is the
    configured output format and whose size is within the configured
    budget, is returned as it is: the result holds the original file, its
    width, height, size and name, [wasProcessed] is false, and nothing is
    loaded, drawn or encoded. *)
Theorem process_skip {browser : Browser}
    (imageInfo : ImageInfo) (userConfig : UserConfig) :
  info_needsProcessing imageInfo = false ->
  file_type (info_file imageInfo) = outputFormat_of userConfig ->
  info_size imageInfo <= maxSizeKB_of userConfig * 1024 ->
  process imageInfo userConfig
  = (inr {| originalFile := info_file imageInfo;
            processedBlob := Some (OfFile (info_file imageInfo));
            finalWidth := Some (info_width imageInfo);
            finalHeight := Some (info_height imageInfo);
            finalSize := Some (info_size imageInfo);
            wasProcessed := false;
            outputFileName := Some (file_name (info_file imageInfo));
            error := None |},
     []).
Proof.
  intros Hnp Hty Hsz. unfold process.
  rewrite Hnp, Hty, String.eqb_refl.
  replace (info_size imageInfo >? maxSizeKB_of userConfig * 1024) with false
    by (symmetry; rewrite Z.gtb_ltb; apply Z.ltb_ge; exact Hsz).
  reflexivity.
Qed.

Lemma process_skip_witness :
  @process (mock_browser 2000000)
    (mkImageInfo (mkFile "photo.jpg" "image/jpeg" 300000) 750 500 300000
       "blob:1" false)
    (mkUserConfig None None None)
  = (inr {| originalFile := mkFile "photo.jpg" "image/jpeg" 300000;
            processedBlob := Some (OfFile (mkFile "photo.jpg" "image/jpeg" 300000));
            finalWidth := Some 750;
            finalHeight := Some 500;
            finalSize := Some 300000;
            wasProcessed := false;
            outputFileName := Some "photo.jpg"%string;
            error := None |},
     []).
Proof.
  apply (@process_skip (mock_browser 2000000)
           (mkImageInfo (mkFile "photo.jpg" "image/jpeg" 300000) 750 500 300000
              "blob:1" false)
           (mkUserConfig None None None)).
  - reflexivity.
  - reflexivity.
  - vm_compute. discriminate.
Defined.

(** ** compress: the lossless format *)

(** C8: for ['image/png'], [compress] makes one call of the encoder, with
    no quality argument, and returns what that call yields; the budget
    plays no part. *)
Theorem compress_png {browser : Browser} (canvas : Canvas) (maxSizeKB : Z) :
  effects (compress canvas maxSizeKB "image/png")
    = [ToBlob canvas "image/png" None] /\
  outcome (compress canvas maxSizeKB "image/png")
    = match toBlob canvas "image/png" None with
      | Encoded b => inr (Some b)
      | EncodedNull => inr None
      | EncodeThrew e => inl e
      end /\
  forall otherKB : Z,
    compress canvas otherKB "image/png" = compress canvas maxSizeKB "image/png".
Proof.
  unfold compress, canvas_toBlob. cbn [String.eqb Ascii.eqb Bool.eqb].
  destruct (toBlob canvas "image/png" None); repeat split; reflexivity.
Qed.

(** The PNG blob can exceed the budget: 2,000,000 bytes against 800 KB. *)
Lemma compress_png_over_budget :
  outcome (@compress (mock_browser 2000000) (mkCanvas 750 750 "a") 800 "image/png")
    = inr (Some (mkBlob 2000000 "image/png")) /\
  2000000 > 800 * 1024.
Proof. split; [reflexivity | lia]. Qed.


(** ** JavaScript numbers *)

(** [Math.round] and [Math.floor] on halves, on negative numbers, on the
    largest double under one half, and beyond [2^53]. *)
Lemma Math_round_examples :
  map Math_round
    [2.5; 3.5; -2.5; -0.5; 0.49999999999999994; 937.49999999999989;
     562.5; 0; 9007199254740993; 1e21]%float
  = [3; 4; -2; 0; 0; 937; 563; 0; 9007199254740992;
     1000000000000000000000].
Proof. vm_compute. reflexivity. Qed.

Lemma Math_floor_examples :
  map Math_floor [2.5; -2.5; -0.5; 0.99999999999999989; 47104.999999999993]%float
  = [2; -3; -1; 0; 47104].
Proof. vm_compute. reflexivity. Qed.

(** An integer is held as it is; [0.1] is the double nearest to one
    tenth; and a sum of doubles rounds: [0.1 + 0.2] is not [0.3]. *)
Lemma Number_examples :
  Number 750 = 750%float /\
  (Number 1 / Number 10 = 0.1)%float /\
  (0.1 + 0.2 <> 0.3)%float.
Proof. repeat split. vm_compute. discriminate. Qed.

(** ** resize *)

(** *** Machine integers *)

Lemma to_Z_of_Z_small (z : Z) :
  0 <= z < 2 ^ 62 -> Uint63.to_Z (Uint63.of_Z z) = z.
Proof.
  intros Hz. rewrite Uint63.of_Z_spec. apply Z.mod_small.
  change Uint63.wB with (2 ^ 63). lia.
Qed.

Lemma to_Z_mul_small (x y : int) :
  Uint63.to_Z x * Uint63.to_Z y < 2 ^ 63 ->
  Uint63.to_Z (PrimInt63.mul x y) = Uint63.to_Z x * Uint63.to_Z y.
Proof.
  intros Hb. rewrite Uint63.mul_spec. apply Z.mod_small.
  pose proof (Uint63.to_Z_bounded x). pose proof (Uint63.to_Z_bounded y).
  change Uint63.wB with (2 ^ 63) in *. nia.
Qed.

Lemma to_Z_add_small (x y : int) :
  Uint63.to_Z x + Uint63.to_Z y < 2 ^ 63 ->
  Uint63.to_Z (PrimInt63.add x y) = Uint63.to_Z x + Uint63.to_Z y.
Proof.
  intros Hb. rewrite Uint63.add_spec. apply Z.mod_small.
  pose proof (Uint63.to_Z_bounded x). pose proof (Uint63.to_Z_bounded y).
  change Uint63.wB with (2 ^ 63) in *. lia.
Qed.

(** What [rounds_to_nearest] decides. *)
Lemma rounds_to_nearest_sound (t w h : Z) (p : float) :
  0 <= t < 2 ^ 20 -> 0 < w < 2 ^ 20 -> 0 <= h < 2 ^ 20 ->
  rounds_to_nearest (Uint63.of_Z t) (Uint63.of_Z w) (Uint63.of_Z h) p = true ->
  nearest (h * t) w (Math_round p).
Proof.
  intros Ht Hw Hh.
  unfold rounds_to_nearest, Math_round, no_integer_parts, integer_parts.
  assert (Et : Uint63.to_Z (Uint63.of_Z t) = t) by (apply to_Z_of_Z_small; lia).
  assert (Ew : Uint63.to_Z (Uint63.of_Z w) = w) by (apply to_Z_of_Z_small; lia).
  assert (Eh : Uint63.to_Z (Uint63.of_Z h) = h) by (apply to_Z_of_Z_small; lia).
  assert (Ebound : h * t < 2 ^ 40) by nia.
  assert (Eht : Uint63.to_Z (PrimInt63.mul (Uint63.of_Z h) (Uint63.of_Z t)) = h * t).
  { rewrite to_Z_mul_small; rewrite Eh, Et; [reflexivity | lia]. }
  assert (E2ht : Uint63.to_Z (PrimInt63.mul 2 (PrimInt63.mul (Uint63.of_Z h) (Uint63.of_Z t)))
                 = 2 * (h * t)).
  { rewrite to_Z_mul_small; rewrite Eht; change (Uint63.to_Z 2) with 2; [reflexivity | lia]. }
  cbv zeta.
  destruct (PrimFloat.is_zero p) eqn:Hzero.
  - rewrite orb_true_r. intros Hle. apply Uint63.leb_spec in Hle.
    rewrite E2ht, Ew in Hle. unfold nearest. nia.
  - destruct (frshiftexp p) as [m e].
    rewrite !andb_true_iff, !negb_true_iff.
    intros ((((((((Hnan & Hinf) & Hsign) & He1) & He2) & HM) & HH) & Hlo) & Hhi).
    rewrite Hnan, Hinf, Hsign. cbn [orb].
    apply Uint63.leb_spec in He1, He2. apply Uint63.ltb_spec in HM, HH.
    change (Uint63.to_Z 2153) with 2153 in He1.
    change (Uint63.to_Z 2094) with 2094 in He2.
    change (Uint63.to_Z 18014398509481984) with (2 ^ 54) in HM.
    change (Uint63.to_Z 1073741824) with (2 ^ 30) in HH.
    change (FloatOps.shift + FloatOps.prec) with 2154.
    set (E := Uint63.to_Z e) in *.
    set (M := Uint63.to_Z (normfr_mantissa m)) in *.
    pose proof (Uint63.to_Z_bounded (normfr_mantissa m)) as HMpos. fold M in HMpos.
    replace (0 <=? E - 2154) with false by (symmetry; apply Z.leb_gt; lia).
    set (k := PrimInt63.sub 2154 e) in *.
    assert (Ek : Uint63.to_Z k = 2154 - E).
    { subst k. rewrite Uint63.sub_spec. change (Uint63.to_Z 2154) with 2154.
      fold E. apply Z.mod_small. change Uint63.wB with (2 ^ 63). lia. }
    assert (Ek1 : Uint63.to_Z (PrimInt63.add k 1) = 2155 - E).
    { rewrite to_Z_add_small; rewrite Ek; change (Uint63.to_Z 1) with 1; lia. }
    assert (Hpow : 2 ^ (2154 - E) <= 2 ^ 60)
      by (apply Z.pow_le_mono_r; lia).
    assert (Hpow0 : 0 < 2 ^ (2154 - E)) by (apply Z.pow_pos_nonneg; lia).
    assert (EM2 : Uint63.to_Z (PrimInt63.lsl (normfr_mantissa m) 1) = 2 * M).
    { rewrite Uint63.lsl_spec. fold M. change (Uint63.to_Z 1) with 1.
      change (2 ^ 1) with 2. rewrite Z.mod_small; [lia|].
      change Uint63.wB with (2 ^ 63). lia. }
    assert (Ehalf : Uint63.to_Z (PrimInt63.lsl 1 k) = 2 ^ (2154 - E)).
    { rewrite Uint63.lsl_spec, Ek. change (Uint63.to_Z 1) with 1.
      rewrite Z.mul_1_l. apply Z.mod_small.
      change Uint63.wB with (2 ^ 63). lia. }
    set (H := PrimInt63.lsr _ _) in *.
    assert (EH : Uint63.to_Z H = (2 * M + 2 ^ (2154 - E)) / 2 ^ (2155 - E)).
    { subst H. rewrite Uint63.lsr_spec, Ek1.
      rewrite to_Z_add_small; rewrite EM2, Ehalf; [reflexivity | lia]. }
    replace (- (E - 2154)) with (2154 - E) by lia.
    replace (2154 - E + 1) with (2155 - E) by lia.
    rewrite Z.shiftl_mul_pow2 by lia. rewrite Z.mul_1_l.
    rewrite Z.shiftr_div_pow2 by lia. rewrite <- EH.
    apply Uint63.leb_spec in Hlo, Hhi.
    assert (E2H : Uint63.to_Z (PrimInt63.mul 2 H) = 2 * Uint63.to_Z H).
    { rewrite to_Z_mul_small; change (Uint63.to_Z 2) with 2; lia. }
    rewrite to_Z_mul_small in Hlo by (rewrite E2H, Ew; nia).
    rewrite to_Z_add_small in Hlo by (rewrite E2ht, Ew; lia).
    rewrite E2H, Ew, E2ht in Hlo.
    assert (E2H1 : Uint63.to_Z (PrimInt63.add (PrimInt63.mul 2 H) 1)
                   = 2 * Uint63.to_Z H + 1).
    { rewrite to_Z_add_small; rewrite E2H; change (Uint63.to_Z 1) with 1; lia. }
    rewrite E2ht in Hhi.
    rewrite to_Z_mul_small in Hhi by (rewrite E2H1, Ew; nia).
    rewrite E2H1, Ew in Hhi.
    unfold nearest. lia.
Qed.

Lemma Z_range_from_In (count : nat) : forall lo z : Z,
  lo <= z < lo + Z.of_nat count -> In z (Z_range_from lo count).
Proof.
  induction count as [|count IH]; intros lo z Hz; [lia|].
  cbn [Z_range_from]. destruct (Z.eq_dec lo z) as [->|Hne].
  - left. reflexivity.
  - right. apply IH. lia.
Qed.

Lemma Z_range_In (lo count z : Z) :
  lo <= z < lo + count -> In z (Z_range lo count).
Proof. intros Hz. apply Z_range_from_In. lia. Qed.

Lemma heights_nearest_sound (t : Z) (widths heights : list Z) (w h : Z) :
  heights_nearest t widths heights = true ->
  In w widths -> In h heights ->
  0 <= t < 2 ^ 20 -> 0 < w < 2 ^ 20 -> 0 <= h < 2 ^ 20 ->
  nearest (h * t) w (Math_round (Number h * (Number t / Number w))%float).
Proof.
  unfold heights_nearest. cbv zeta. intros Hall Hw Hh Ht Hwb Hhb.
  rewrite List.forallb_forall in Hall. specialize (Hall w Hw).
  rewrite List.forallb_forall in Hall.
  specialize (Hall (Uint63.of_Z h, Number h)).
  apply rounds_to_nearest_sound; [exact Ht | exact Hwb | exact Hhb |].
  apply Hall. apply in_map_iff. exists h. split; [reflexivity | exact Hh].
Qed.

(** Every width from 1 to 5000 against every height from 0 to 5000, the
    sizes that the property tests of the repository draw: twenty-five
    million products, each evaluated. *)
Lemma heights_nearest_to_5000 :
  heights_nearest 750 (Z_range 1 5000) (Z_range 0 5001) = true.
Proof. vm_cast_no_check (@eq_refl bool true). Qed.

(** Heights up to 65535 of a picture that is 750 wide. *)
Lemma heights_nearest_at_750 :
  heights_nearest 750 [750] (Z_range 0 65536) = true.
Proof. vm_cast_no_check (@eq_refl bool true). Qed.

Lemma scaled_height_nearest (w h : Z) :
  0 < w <= 5000 -> 0 <= h <= 5000 ->
  nearest (h * 750) w (Math_round (Number h * (Number 750 / Number w))%float).
Proof.
  intros Hw Hh.
  apply (heights_nearest_sound 750 (Z_range 1 5000) (Z_range 0 5001));
    [exact heights_nearest_to_5000 | apply Z_range_In; lia
    | apply Z_range_In; lia | lia | lia | lia].
Qed.

(** The integer nearest to [n / d], a tie going up, is the one [r] with
    [(2r - 1) d <= 2n < (2r + 1) d]; there is only one. *)
Lemma nearest_unique (n d r r' : Z) :
  0 < d ->
  (2 * r - 1) * d <= 2 * n < (2 * r + 1) * d ->
  (2 * r' - 1) * d <= 2 * n < (2 * r' + 1) * d ->
  r = r'.
Proof. intros Hd H1 H2. nia. Qed.

(** *** The scaling in exact arithmetic *)

Lemma round_half_up_scaled (h t w : Z) :
  0 < w ->
  round_half_up (inject_Z h * (inject_Z t / inject_Z w))%Q
  = (2 * (h * t) + w) / (2 * w).
Proof.
  intros Hw. unfold round_half_up. rewrite Zdiv_Qdiv. apply Qfloor_comp.
  rewrite !inject_Z_plus, !inject_Z_mult.
  change (inject_Z 2) with (2 # 1)%Q. field.
  intros H0. apply (inject_Z_injective w 0) in H0. lia.
Qed.

(** In exact arithmetic the height is the integer nearest to
    [h * 750 / w], a tie going up. *)
Lemma resize_exact_dimensions (src : string) (w h maxHeight : Z) :
  0 < w ->
  exists newHeight : Z,
    resize_exact (mkImage src w h) CONFIG.maxWidth maxHeight
      = (inr (mkCanvas 750 newHeight src), [DrawImage src 750 newHeight]) /\
    (2 * newHeight - 1) * w <= 2 * (h * 750) < (2 * newHeight + 1) * w.
Proof.
  intros Hw.
  exists ((2 * (h * 750) + w) / (2 * w)). split.
  - unfold resize_exact, CONFIG.maxWidth; cbn [naturalWidth naturalHeight img_src].
    rewrite (round_half_up_scaled h 750 w Hw). reflexivity.
  - set (n := 2 * (h * 750) + w). set (d := 2 * w).
    pose proof (Z.div_mod n d ltac:(lia)) as Hdm.
    pose proof (Z.mod_pos_bound n d ltac:(lia)) as Hb.
    nia.
Qed.

(** *** The claim *)




(** The tie of a 2000 x 1500 image goes up, to 563, as the test of the
    repository expects; and in exact arithmetic the height of the
    912 x 1140 image is 938. *)
Lemma resize_ties :
  outcome (resize (mkImage "a.png" 2000 1500) CONFIG.maxWidth CONFIG.maxHeight)
    = inr (mkCanvas 750 563 "a.png") /\
  outcome (resize (mkImage "a.png" 912 1140) CONFIG.maxWidth CONFIG.maxHeight)
    = inr (mkCanvas 750 937 "a.png") /\
  outcome (resize_exact (mkImage "a.png" 912 1140) CONFIG.maxWidth
             CONFIG.maxHeight)
    = inr (mkCanvas 750 938 "a.png").
Proof. repeat split; vm_compute; reflexivity. Qed.

(** The height is not bounded by [maxHeight]: 500 x 1500 becomes
    750 x 2250. *)
Lemma resize_height_unclamped :
  outcome (resize (mkImage "a.png" 500 1500) CONFIG.maxWidth CONFIG.maxHeight)
  = inr (mkCanvas 750 2250 "a.png").
Proof. vm_compute. reflexivity. Qed.

(** ** compress: the quality search *)

Section Search.
Context {browser : Browser}.
Variables (canvas : Canvas) (format : string) (budget : Z).

(** The encoder yields a blob at every quality: [enc q] at [q]. *)
Variable enc : float -> Blob.
Hypothesis encoder_yields :
  forall q : float, toBlob canvas format (Some q) = Encoded (enc q).

Lemma canvas_toBlob_yields (q : float) :
  canvas_toBlob canvas format (Some q)
  = (inr (Some (enc q)), [ToBlob canvas format (Some q)]).
Proof. unfold canvas_toBlob. rewrite encoder_yields. reflexivity. Qed.

Lemma round_call_shift (s : SearchState) (n : nat) :
  map (round_call canvas format enc budget s) (seq 1 n)
  = map (round_call canvas format enc budget (spec_round enc budget s)) (seq 0 n).
Proof.
  rewrite <- seq_shift, map_map. apply map_ext. intros k.
  unfold round_call. rewrite Nat.iter_succ_r. reflexivity.
Qed.

(** The loop of the source runs the rounds of the specification. *)
Lemma compress_rounds_spec (n : nat) : forall s : SearchState,
  compress_rounds n canvas format budget (st_min s) (st_max s)
    (bestBlob_at enc s)
  = (inr (st_min (Nat.iter n (spec_round enc budget) s),
          st_max (Nat.iter n (spec_round enc budget) s),
          bestBlob_at enc (Nat.iter n (spec_round enc budget) s)),
     map (round_call canvas format enc budget s) (seq 0 n)).
Proof.
  induction n as [|n IH]; intros s.
  - reflexivity.
  - cbn [compress_rounds]. rewrite canvas_toBlob_yields.
    rewrite Nat.iter_succ_r. cbn [seq map]. rewrite round_call_shift.
    change (round_call canvas format enc budget s 0)
      with (ToBlob canvas format (Some (spec_mid s))).
    fold (spec_mid s). unfold bind at 1 2, size_of, ret.
    assert (Hstep : spec_round enc budget s
              = if blob_size (enc (spec_mid s)) <=? budget
                then mkSearch (spec_mid s) (st_max s) (Some (enc (spec_mid s)))
                else mkSearch (st_min s) (spec_mid s) (st_best s))
      by reflexivity.
    rewrite Hstep.
    destruct (blob_size (enc (spec_mid s)) <=? budget).
    + pose proof (IH (mkSearch (spec_mid s) (st_max s) (Some (enc (spec_mid s)))))
        as IH'.
      cbn [st_min st_max] in IH'. unfold bestBlob_at at 1 in IH'.
      cbn [st_best from_option id] in IH'. rewrite IH'. reflexivity.
    + pose proof (IH (mkSearch (st_min s) (spec_mid s) (st_best s))) as IH'.
      cbn [st_min st_max] in IH'. unfold bestBlob_at at 1 in IH'.
      cbn [st_best] in IH'. unfold bestBlob_at at 1. rewrite IH'. reflexivity.
Qed.

(** The same from the initial state, in terms of [spec_state]. *)
Lemma compress_rounds_initial (n : nat) :
  compress_rounds n canvas format budget 0.1 1.0 (Some (enc 1.0%float))
  = (inr (st_min (spec_state enc budget n),
          st_max (spec_state enc budget n),
          Some (default (enc 1.0%float) (st_best (spec_state enc budget n)))),
     map (fun k => ToBlob canvas format
                     (Some (spec_mid (spec_state enc budget k))))
       (seq 0 n)).
Proof. exact (compress_rounds_spec n spec_initial). Qed.

Lemma search_invariant_round (s : SearchState) :
  search_invariant budget s ->
  search_invariant budget (spec_round enc budget s).
Proof.
  intros [Hfit Hfloor]. unfold spec_round.
  destruct (blob_size (enc (spec_mid s)) <=? budget) eqn:Hle;
    split; cbn [st_best st_min]; intros.
  - apply Z.leb_le in Hle. congruence.
  - discriminate.
  - auto.
  - auto.
Qed.

Lemma search_invariant_state (k : nat) :
  search_invariant budget (spec_state enc budget k).
Proof.
  induction k as [|k IH].
  - split; cbn; [discriminate | reflexivity].
  - unfold spec_state. rewrite Nat.iter_succ.
    apply search_invariant_round, IH.
Qed.

(** [compress] on a lossy format, in terms of the specification's
    search. *)
Lemma compress_lossy (maxSizeKB : Z) :
  budget = maxSizeKB * 1024 ->
  format <> "image/png"%string ->
  compress canvas maxSizeKB format
  = if blob_size (enc 1.0%float) <=? budget
    then (inr (Some (enc 1.0%float)), [ToBlob canvas format (Some 1.0%float)])
    else
      (inr (Some (default (enc (st_min (spec_state enc budget 10)))
                    (st_best (spec_state enc budget 10)))),
       ToBlob canvas format (Some 1.0%float)
       :: map (fun k => ToBlob canvas format
                          (Some (spec_mid (spec_state enc budget k))))
            (seq 0 10)
       ++ match st_best (spec_state enc budget 10) with
          | Some _ => []
          | None => [ToBlob canvas format
                       (Some (st_min (spec_state enc budget 10)))]
          end).
Proof.
  intros Hbudget Hfmt. unfold compress. rewrite <- Hbudget.
  apply String.eqb_neq in Hfmt. rewrite Hfmt.
  rewrite canvas_toBlob_yields. unfold bind at 1 2, size_of at 1, ret at 1.
  destruct (blob_size (enc 1.0%float) <=? budget) eqn:Hfirst; [reflexivity|].
  rewrite (compress_rounds_initial 10).
  pose proof (search_invariant_state 10) as [Hfit Hfloor].
  generalize dependent (spec_state enc budget 10). intros final Hfit Hfloor.
  generalize (map (fun k => ToBlob canvas format
                     (Some (spec_mid (spec_state enc budget k)))) (seq 0 10)).
  intros calls.
  unfold bind, still_too_big.
  destruct (st_best final) as [b|] eqn:Hbest; cbn [from_option id].
  - specialize (Hfit b eq_refl).
    replace (blob_size b >? budget) with false
      by (symmetry; rewrite Z.gtb_ltb; apply Z.ltb_ge; exact Hfit).
    unfold ret. rewrite !app_nil_r. reflexivity.
  - replace (blob_size (enc 1.0%float) >? budget) with true
      by (symmetry; rewrite Z.gtb_ltb; apply Z.ltb_lt; apply Z.leb_gt in Hfirst; exact Hfirst).
    rewrite canvas_toBlob_yields. reflexivity.
Qed.
End Search.

(** ** The order of doubles *)

Lemma SFleb_trans (x y z : spec_float) :
  SFleb x y = true -> SFleb y z = true -> SFleb x z = true.
Proof.
  unfold SFleb, SFcompare.
  destruct x as [sx|sx| |sx mx ex], y as [sy|sy| |sy my ey],
    z as [sz|sz| |sz mz ez];
    try discriminate; try reflexivity;
    repeat match goal with
           | s : bool |- _ => destruct s
           end;
    try discriminate; try reflexivity;
    change (Pos.compare_cont Eq) with Pos.compare;
    repeat match goal with
           | |- context [Z.compare ?a ?b] => destruct (Z.compare_spec a b)
           | |- context [Pos.compare ?a ?b] => destruct (Pos.compare_spec a b)
           end;
    cbn [CompOpp]; intros;
    try discriminate; try reflexivity; exfalso; subst; lia.
Qed.

Lemma Number_le_trans (x y z : float) :
  Number_le x y -> Number_le y z -> Number_le x z.
Proof. unfold Number_le. rewrite !leb_spec. apply SFleb_trans. Qed.

(** The stepped encoder is monotone. *)
Lemma stepped_size_monotone (threshold : float) (low high : Z)
    (q1 q2 : float) :
  low <= high ->
  Number_le q1 q2 ->
  stepped_size threshold low high q1 <= stepped_size threshold low high q2.
Proof.
  intros Hsizes Hq. unfold stepped_size.
  destruct (q2 <=? threshold)%float eqn:H2.
  - rewrite (Number_le_trans q1 q2 threshold Hq H2). lia.
  - destruct (q1 <=? threshold)%float; lia.
Qed.

(** ** compress: the bounds of the search *)

(** The bounds that ten rounds can reach, however the encoder answers,
    are 2047 pairs in all; each of them is in range, with its midpoint. *)
Lemma search_bounds_checked :
  forallb (fun k => forallb bounds_in_range (search_bounds k)) (seq 0 11)
  = true.
Proof. vm_compute. reflexivity. Qed.

Lemma search_bounds_in_range (k : nat) (lo hi : float) :
  (k <= 10)%nat ->
  In (lo, hi) (search_bounds k) ->
  Number_le 0.1 lo /\ Number_le lo 1.0 /\
  Number_le 0.1 ((lo + hi) / 2)%float /\ Number_le ((lo + hi) / 2)%float 1.0 /\
  Number_le 0.1 hi /\ Number_le hi 1.0 /\
  Number_le lo ((lo + hi) / 2)%float /\ Number_le ((lo + hi) / 2)%float hi.
Proof.
  intros Hk Hin.
  pose proof search_bounds_checked as Hall.
  rewrite List.forallb_forall in Hall.
  specialize (Hall k ltac:(apply in_seq; lia)).
  rewrite List.forallb_forall in Hall.
  specialize (Hall (lo, hi) Hin).
  unfold bounds_in_range in Hall. cbv zeta in Hall. cbn [fst snd] in Hall.
  rewrite !andb_true_iff in Hall. unfold Number_le. tauto.
Qed.

Lemma search_bounds_raise (k : nat) (lo hi : float) :
  In (lo, hi) (search_bounds k) ->
  In (((lo + hi) / 2)%float, hi) (search_bounds (S k)).
Proof.
  intros Hin. cbn [search_bounds]. apply in_flat_map.
  exists (lo, hi). split; [exact Hin|]. left. reflexivity.
Qed.

Lemma search_bounds_lower (k : nat) (lo hi : float) :
  In (lo, hi) (search_bounds k) ->
  In (lo, ((lo + hi) / 2)%float) (search_bounds (S k)).
Proof.
  intros Hin. cbn [search_bounds]. apply in_flat_map.
  exists (lo, hi). split; [exact Hin|]. right. left. reflexivity.
Qed.

(** The bounds of the specification's search after [k] rounds are among
    them. *)
Lemma spec_state_bounds (enc : float -> Blob) (budget : Z) (k : nat) :
  In (st_min (spec_state enc budget k), st_max (spec_state enc budget k))
    (search_bounds k).
Proof.
  induction k as [|k IH].
  - left. reflexivity.
  - unfold spec_state in *. rewrite Nat.iter_succ.
    set (s := Nat.iter k (spec_round enc budget) spec_initial) in *.
    unfold spec_round, spec_mid.
    destruct (blob_size (enc ((st_min s + st_max s) / 2)%float) <=? budget);
      cbn [st_min st_max].
    + apply search_bounds_raise. exact IH.
    + apply search_bounds_lower. exact IH.
Qed.

(** Under a monotone encoder whose floor-quality blob is over budget, no
    round records a blob: the lower bound stays at the floor. *)
Lemma search_stays_at_floor (enc : float -> Blob) (budget : Z) :
  (forall q1 q2 : float,
     Number_le 0.1 q1 -> Number_le q1 q2 -> Number_le q2 1.0 ->
     blob_size (enc q1) <= blob_size (enc q2)) ->
  budget < blob_size (enc 0.1%float) ->
  forall k : nat,
    (k <= 10)%nat ->
    st_best (spec_state enc budget k) = None /\
    st_min (spec_state enc budget k) = 0.1%float.
Proof.
  intros Hmono Hfloor k. induction k as [|k IH]; intros Hk.
  - split; reflexivity.
  - destruct (IH ltac:(lia)) as [Hbest Hmin].
    pose proof (spec_state_bounds enc budget k) as Hin.
    apply search_bounds_in_range in Hin; [|lia].
    destruct Hin as (_ & _ & Hmid_lo & Hmid_hi & _).
    unfold spec_state in *. rewrite Nat.iter_succ.
    set (s := Nat.iter k (spec_round enc budget) spec_initial) in *.
    assert (Hover : budget < blob_size (enc (spec_mid s))).
    { eapply Z.lt_le_trans; [exact Hfloor|].
      apply Hmono; [reflexivity | exact Hmid_lo | exact Hmid_hi]. }
    unfold spec_round.
    replace (blob_size (enc (spec_mid s)) <=? budget) with false
      by (symmetry; apply Z.leb_gt; exact Hover).
    cbn [st_best st_min]. split; [exact Hbest | exact Hmin].
Qed.

(** ** compress: the budget *)

(** C1: take a lossy format and an encoder that yields a blob at every
    quality, its size monotone in the quality between 0.1 and 1.  Then
    [compress] returns a blob and never throws; when the blob of quality
    0.1 is within [maxSizeKB * 1024] bytes so is the returned one; and
    when it is not, [compress] ends with one more encode, at the floor
    quality 0.1, and returns that blob although it exceeds the budget. *)
Theorem compress_budget {browser : Browser}
    (canvas : Canvas) (maxSizeKB : Z) (format : string)
    (enc : float -> Blob) :
  format <> "image/png"%string ->
  (forall q : float, toBlob canvas format (Some q) = Encoded (enc q)) ->
  (forall q1 q2 : float,
     Number_le 0.1 q1 -> Number_le q1 q2 -> Number_le q2 1.0 ->
     blob_size (enc q1) <= blob_size (enc q2)) ->
  exists b : Blob,
    outcome (compress canvas maxSizeKB format) = inr (Some b) /\
    (blob_size (enc 0.1%float) <= maxSizeKB * 1024 ->
     blob_size b <= maxSizeKB * 1024) /\
    (maxSizeKB * 1024 < blob_size (enc 0.1%float) ->
     b = enc 0.1%float /\
     maxSizeKB * 1024 < blob_size b /\
     last (effects (compress canvas maxSizeKB format))
       = Some (ToBlob canvas format (Some 0.1%float))).
Proof.
  intros Hfmt Henc Hmono.
  rewrite (compress_lossy canvas format (maxSizeKB * 1024) enc Henc
             maxSizeKB eq_refl Hfmt).
  set (budget := maxSizeKB * 1024).
  destruct (blob_size (enc 1.0%float) <=? budget) eqn:Hfirst.
  - apply Z.leb_le in Hfirst. exists (enc 1.0%float).
    split; [reflexivity|]. split.
    + intros _. exact Hfirst.
    + intros Hover. exfalso.
      assert (blob_size (enc 0.1%float) <= blob_size (enc 1.0%float))
        by (apply Hmono; reflexivity).
      lia.
  - pose proof (search_invariant_state budget enc 10) as [Hfit Hfloor].
    pose proof (search_stays_at_floor enc budget Hmono) as Hstuck.
    specialize (fun H => Hstuck H 10%nat (le_n 10)).
    generalize dependent (spec_state enc budget 10). intros final.
    generalize (map (fun k => ToBlob canvas format
                       (Some (spec_mid (spec_state enc budget k)))) (seq 0 10)).
    intros calls Hfit Hfloor Hstuck.
    exists (default (enc (st_min final)) (st_best final)).
    split; [reflexivity|]. split.
    + intros Hfloor_fits.
      destruct (st_best final) as [b|] eqn:Hbest; cbn [from_option id].
      * apply Hfit. reflexivity.
      * rewrite (Hfloor eq_refl). exact Hfloor_fits.
    + intros Hover. destruct (Hstuck Hover) as (Hbest & Hmin).
      rewrite Hbest, Hmin. cbn [from_option id effects snd].
      split; [reflexivity|]. split; [exact Hover|].
      rewrite app_comm_cons. apply last_snoc.
Qed.

(** A picture of 2,000,000 bytes above quality 0.5 and 500,000 bytes up
    to it, against 800 KB: the floor quality fits, and so does the
    result. *)
Lemma compress_budget_witness :
  exists b : Blob,
    outcome (@compress (browser_with_step 0.5 500000 2000000)
               (mkCanvas 750 750 "a") 800 "image/jpeg") = inr (Some b) /\
    blob_size b <= 800 * 1024.
Proof.
  destruct (@compress_budget (browser_with_step 0.5 500000 2000000)
              (mkCanvas 750 750 "a") 800 "image/jpeg"
              (fun q => mkBlob (stepped_size 0.5 500000 2000000 q)
                          "image/jpeg"))
    as (b & Hout & Hfit & _).
  - discriminate.
  - intros q. reflexivity.
  - intros q1 q2 _ Hq _. cbn [blob_size].
    apply stepped_size_monotone; [lia | exact Hq].
  - exists b. split; [exact Hout|]. apply Hfit. vm_compute. discriminate.
Defined.

(** The size-controlled canvas of the tests with 2,000,000 bytes at
    quality 1 and a budget of 800 KB: the search settles on 818,750
    bytes, within the 819,200 of the budget. *)
Lemma compress_fitting_example :
  outcome (@compress (mock_browser 2000000) (mkCanvas 750 750 "a") 800
             "image/jpeg")
    = inr (Some (mkBlob 818750 "image/jpeg")).
Proof. vm_compute. reflexivity. Qed.

(** A picture of 10,000,000 bytes at quality 1: even the floor quality is
    over 800 KB, and its blob of 1,000,000 bytes is what comes back, after
    twelve encodes. *)
Lemma compress_best_effort_example :
  outcome (@compress (mock_browser 10000000) (mkCanvas 750 750 "a") 800
             "image/jpeg")
    = inr (Some (mkBlob 1000000 "image/jpeg")) /\
  length (effects (@compress (mock_browser 10000000) (mkCanvas 750 750 "a") 800
                     "image/jpeg")) = 12%nat.
Proof. split; vm_compute; reflexivity. Qed.

(** ** compress: the search *)

(** C2: on a lossy format whose encoder yields a blob at every quality,
    [compress] first encodes at quality 1 and returns that blob at once
    when it is within budget.  Otherwise it runs the ten rounds of the
    specification's search from [0.1, 1]: round [k] encodes at the
    midpoint of the state after [k] rounds, and the loop leaves the
    bounds and the best blob of the state after ten rounds.  The
    midpoints are those of the source, sums and halves of doubles. *)
Theorem compress_binary_search {browser : Browser}
    (canvas : Canvas) (maxSizeKB : Z) (format : string)
    (enc : float -> Blob) :
  format <> "image/png"%string ->
  (forall q : float, toBlob canvas format (Some q) = Encoded (enc q)) ->
  let budget := maxSizeKB * 1024 in
  let first_call := ToBlob canvas format (Some 1.0%float) in
  let final := spec_state enc budget 10 in
  (blob_size (enc 1.0%float) <= budget ->
   compress canvas maxSizeKB format
     = (inr (Some (enc 1.0%float)), [first_call])) /\
  (budget < blob_size (enc 1.0%float) ->
   compress_rounds 10 canvas format budget 0.1 1.0 (Some (enc 1.0%float))
     = (inr (st_min final, st_max final,
             Some (default (enc 1.0%float) (st_best final))),
        map (fun k => ToBlob canvas format
                        (Some (spec_mid (spec_state enc budget k))))
          (seq 0 10)) /\
   compress canvas maxSizeKB format
     = (inr (Some (default (enc (st_min final)) (st_best final))),
        first_call
        :: map (fun k => ToBlob canvas format
                           (Some (spec_mid (spec_state enc budget k))))
             (seq 0 10)
        ++ match st_best final with
           | Some _ => []
           | None => [ToBlob canvas format (Some (st_min final))]
           end)).
Proof.
  intros Hfmt Henc budget first_call final.
  pose proof (compress_lossy canvas format budget enc Henc maxSizeKB
                eq_refl Hfmt) as Hc.
  split; intros Hfirst.
  - apply Z.leb_le in Hfirst. rewrite Hfirst in Hc. exact Hc.
  - apply Z.leb_gt in Hfirst. rewrite Hfirst in Hc. split; [|exact Hc].
    exact (compress_rounds_initial canvas format budget enc Henc 10).
Qed.

(** A picture of 2,000,000 bytes at quality 1 against 800 KB: the search
    runs and records a blob, so eleven encodes are made, the first and
    one per round. *)
Lemma compress_binary_search_witness :
  length (effects (@compress (mock_browser 2000000) (mkCanvas 750 750 "a") 800
                     "image/jpeg")) = 11%nat.
Proof.
  destruct (@compress_binary_search (mock_browser 2000000)
              (mkCanvas 750 750 "a") 800 "image/jpeg"
              (fun q => mkBlob (Math_floor (Number 2000000 * q)%float)
                          "image/jpeg"))
    as [_ Hsearch].
  - discriminate.
  - intros q. reflexivity.
  - destruct Hsearch as [_ Hc]; [vm_compute; reflexivity|].
    rewrite Hc. vm_compute. reflexivity.
Defined.

(** The midpoints are doubles.  With an encoder of [floor (51200 *
    quality)] bytes and a budget of 46 KB, the quality of the tenth round
    is the double 0.92001953124999991, whose blob has the 47104 bytes of
    the budget and is returned; the midpoint of exact arithmetic,
    0.92001953125, would have given a blob one byte over. *)
Lemma compress_double_midpoints :
  outcome (@compress (mock_browser 51200) (mkCanvas 750 750 "a") 46
             "image/jpeg")
    = inr (Some (mkBlob 47104 "image/jpeg")) /\
  last (effects (@compress (mock_browser 51200) (mkCanvas 750 750 "a") 46
                   "image/jpeg"))
    = Some (ToBlob (mkCanvas 750 750 "a") "image/jpeg"
              (Some 0.92001953124999991%float)) /\
  Math_floor (Number 51200 * 0.92001953125)%float = 47105.
Proof. repeat split; vm_compute; reflexivity. Qed.

(** ** processAll *)

Lemma emissions_app (tr1 tr2 : list Effect) :
  emissions (tr1 ++ tr2) = emissions tr1 ++ emissions tr2.
Proof. apply omap_app. Qed.

Lemma silent_ret {A} (a : A) : silent (ret a).
Proof. reflexivity. Qed.

Lemma silent_throw {A} (e : Thrown) : silent (@throw A e).
Proof. reflexivity. Qed.

Lemma silent_bind {A B} (m : Js A) (k : A -> Js B) :
  silent m -> (forall a, silent (k a)) -> silent (bind m k).
Proof.
  unfold silent, bind. destruct m as [[e|a] tr]; cbn [effects snd]; intros Hm Hk.
  - exact Hm.
  - specialize (Hk a). destruct (k a) as [r tr']. cbn [effects snd] in *.
    rewrite emissions_app, Hm, Hk. reflexivity.
Qed.

Section Silent.
Context {browser : Browser}.

Lemma silent_size_of (blob : option Blob) : silent (size_of blob).
Proof. destruct blob; reflexivity. Qed.

Lemma silent_canvas_toBlob canvas format quality :
  silent (canvas_toBlob canvas format quality).
Proof.
  unfold canvas_toBlob. apply silent_bind; [reflexivity|].
  intros _. destruct (toBlob canvas format quality); reflexivity.
Qed.

Lemma silent_await_load url : silent (await_load url).
Proof.
  unfold await_load. apply silent_bind; [reflexivity|].
  intros _. destruct (loadImage url); reflexivity.
Qed.

Lemma silent_resize image targetWidth maxHeight :
  silent (resize image targetWidth maxHeight).
Proof. reflexivity. Qed.

Lemma silent_compress_rounds rounds canvas format maxSizeBytes :
  forall minQuality maxQuality bestBlob,
    silent (compress_rounds rounds canvas format maxSizeBytes
              minQuality maxQuality bestBlob).
Proof.
  induction rounds as [|n IH]; intros; cbn [compress_rounds].
  - reflexivity.
  - apply silent_bind; [apply silent_canvas_toBlob|]. intros blob.
    apply silent_bind; [apply silent_size_of|]. intros sz.
    destruct (sz <=? maxSizeBytes); apply IH.
Qed.

Lemma silent_compress canvas maxSizeKB format :
  silent (compress canvas maxSizeKB format).
Proof.
  unfold compress. destruct (String.eqb format "image/png").
  - apply silent_canvas_toBlob.
  - apply silent_bind; [apply silent_canvas_toBlob|]. intros blob.
    apply silent_bind; [apply silent_size_of|]. intros sz.
    destruct (sz <=? maxSizeKB * 1024); [reflexivity|].
    apply silent_bind; [apply silent_compress_rounds|].
    intros [[minQ maxQ] best].
    destruct (still_too_big best (maxSizeKB * 1024));
      [apply silent_canvas_toBlob | reflexivity].
Qed.

Lemma silent_process imageInfo userConfig :
  silent (process imageInfo userConfig).
Proof.
  unfold process.
  destruct (negb (info_needsProcessing imageInfo) && _ && _); [reflexivity|].
  apply silent_bind; [apply silent_await_load|]. intros img.
  apply silent_bind; [apply silent_resize|]. intros canvas.
  apply silent_bind; [apply silent_compress|]. intros blob.
  apply silent_bind; [apply silent_size_of|]. intros sz. reflexivity.
Qed.

(** Every result of [process] refers to the file of its item. *)
Lemma process_originalFile imageInfo userConfig result :
  outcome (process imageInfo userConfig) = inr result ->
  originalFile result = info_file imageInfo.
Proof.
  unfold process.
  destruct (negb (info_needsProcessing imageInfo) && _ && _).
  - cbn. intros [= <-]. reflexivity.
  - destruct (await_load _) as [[e|img] tr1]; cbn; [discriminate|].
    destruct (compress _ _ _) as [[e|blob] tr3]; cbn; [discriminate|].
    destruct blob as [b|]; cbn; [|discriminate].
    intros [= <-]. reflexivity.
Qed.

Lemma item_result_originalFile userConfig imageInfo :
  originalFile (item_result userConfig imageInfo) = info_file imageInfo.
Proof.
  unfold item_result.
  destruct (outcome (process imageInfo userConfig)) as [e|r] eqn:Hout.
  - reflexivity.
  - eapply process_originalFile, Hout.
Qed.

(** The [try]/[catch] around one item never throws. *)
Lemma try_process (imageInfo : ImageInfo) (userConfig : UserConfig)
    (results : list ProcessingResult) :
  try_catch
    (result <- process imageInfo userConfig ;; ret (results ++ [result]))
    (fun thrown => ret (results ++ [failure_result imageInfo thrown]))
  = (inr (results ++ [item_result userConfig imageInfo]),
     effects (process imageInfo userConfig)).
Proof.
  unfold item_result, outcome, effects.
  destruct (process imageInfo userConfig) as [[e|r] tr];
    cbn; rewrite app_nil_r; reflexivity.
Qed.

(** The loop of [processAll] returns one result per item, in order, and
    performs the effects of [batch_effects]. *)
Lemma processAll_from_run (userConfig : UserConfig) (total : Z)
    (rest : list ImageInfo) : forall (i : Z) (results : list ProcessingResult),
  processAll_from rest userConfig total i results
  = (inr (results ++ map (item_result userConfig) rest),
     batch_effects userConfig total i results rest).
Proof.
  induction rest as [|imageInfo rest IH]; intros i results.
  - cbn. rewrite app_nil_r. reflexivity.
  - cbn [processAll_from batch_effects map]. rewrite try_process.
    unfold bind at 1 2 3, perform. rewrite IH.
    rewrite <- app_assoc. reflexivity.
Qed.

Lemma emissions_cons_progress (p : BatchProgress) (tr : list Effect) :
  emissions (OnProgress p :: tr) = p :: emissions tr.
Proof. reflexivity. Qed.

(** The callbacks of the loop: their [completed] counts and [total]. *)
Lemma emissions_batch_effects (userConfig : UserConfig) (total : Z)
    (rest : list ImageInfo) : forall (i : Z) (results : list ProcessingResult),
  map progress_completed
    (emissions (batch_effects userConfig total i results rest))
    = completed_counts i (length rest) /\
  Forall (fun p => progress_total p = total)
    (emissions (batch_effects userConfig total i results rest)).
Proof.
  induction rest as [|imageInfo rest IH]; intros i results.
  - split; [reflexivity | constructor].
  - cbn [batch_effects length completed_counts].
    rewrite emissions_cons_progress, emissions_app,
      (silent_process imageInfo userConfig), app_nil_l,
      emissions_cons_progress.
    destruct (IH (i + 1)
                (results ++ [item_result userConfig imageInfo]))
      as [Hcounts Htotal].
    split.
    + cbn [map progress_completed]. rewrite Hcounts. reflexivity.
    + repeat constructor. exact Htotal.
Qed.
End Silent.

Lemma completed_counts_length (n : nat) : forall i : Z,
  length (completed_counts i n) = (2 * n)%nat.
Proof.
  induction n as [|n IH]; intros i; cbn [completed_counts length].
  - reflexivity.
  - rewrite IH. lia.
Qed.

(** Every count from index [i] on lies between [i] and [i + n]. *)
Lemma completed_counts_bounds (n : nat) : forall (i c : Z),
  In c (completed_counts i n) -> i <= c <= i + Z.of_nat n.
Proof.
  induction n as [|n IH]; intros i c; cbn [completed_counts In].
  - intros [].
  - intros [<- | [<- | Hin]]; [lia | lia |].
    apply IH in Hin. lia.
Qed.

(** The counts never decrease. *)
Lemma completed_counts_monotone (n : nat) : forall (i : Z) (j k : nat) (a b : Z),
  (j <= k)%nat ->
  completed_counts i n !! j = Some a ->
  completed_counts i n !! k = Some b ->
  a <= b.
Proof.
  induction n as [|n IH]; intros i j k a b Hjk; cbn [completed_counts].
  - intros Hj. discriminate.
  - destruct j as [|[|j]]; destruct k as [|[|k]]; cbn; try lia.
    + intros [= <-] [= <-]. lia.
    + intros [= <-] [= <-]. lia.
    + intros [= <-] Hk. apply list_elem_of_lookup_2, list_elem_of_In in Hk.
      apply completed_counts_bounds in Hk. lia.
    + intros [= <-] [= <-]. lia.
    + intros [= <-] Hk. apply list_elem_of_lookup_2, list_elem_of_In in Hk.
      apply completed_counts_bounds in Hk. lia.
    + intros Hj Hk. eapply (IH (i + 1) j k); [lia | exact Hj | exact Hk].
Qed.

(** The last count of a batch that is not empty is [i + n]. *)
Lemma completed_counts_last (n : nat) : forall i : Z,
  last (completed_counts i (S n)) = Some (i + Z.of_nat (S n)).
Proof.
  induction n as [|n IH]; intros i.
  - cbn; f_equal; lia.
  - change (completed_counts i (S (S n)))
      with (i :: (i + 1) :: completed_counts (i + 1) (S n)).
    rewrite !last_cons, IH. f_equal. lia.
Qed.

(** The two callbacks of item [j]: before it with [completed = i + j],
    after it with [completed = i + j + 1]. *)
Lemma completed_counts_item (n : nat) : forall (i : Z) (j : nat),
  (j < n)%nat ->
  completed_counts i n !! (2 * j)%nat = Some (i + Z.of_nat j) /\
  completed_counts i n !! (2 * j + 1)%nat = Some (i + Z.of_nat j + 1).
Proof.
  induction n as [|n IH]; intros i j Hj; [lia|].
  destruct j as [|j].
  - cbn; split; f_equal; lia.
  - replace (2 * S j)%nat with (S (S (2 * j))) by lia.
    replace (S (S (2 * j)) + 1)%nat with (S (S (2 * j + 1))) by lia.
    cbn [completed_counts lookup list_lookup].
    destruct (IH (i + 1) j ltac:(lia)) as [H1 H2].
    change (completed_counts (i + 1) n !! (2 * j)%nat
            = Some (i + Z.of_nat (S j)) /\
            completed_counts (i + 1) n !! (2 * j + 1)%nat
            = Some (i + Z.of_nat (S j) + 1)).
    rewrite H1, H2. split; f_equal; lia.
Qed.

Section BatchCalls.
Context {browser : Browser}.

Lemma emissions_batch_cons (userConfig : UserConfig) (total i : Z)
    (results : list ProcessingResult) (imageInfo : ImageInfo)
    (rest : list ImageInfo) :
  emissions (batch_effects userConfig total i results (imageInfo :: rest))
  = mkProgress total i (file_name (info_file imageInfo)) results
    :: mkProgress total (i + 1) (file_name (info_file imageInfo))
         (results ++ [item_result userConfig imageInfo])
    :: emissions (batch_effects userConfig total (i + 1)
                    (results ++ [item_result userConfig imageInfo]) rest).
Proof.
  cbn [batch_effects].
  rewrite emissions_cons_progress, emissions_app,
    (silent_process imageInfo userConfig), app_nil_l,
    emissions_cons_progress.
  reflexivity.
Qed.

(** The two callbacks of item [j] of the loop, with all their fields:
    the [results] they see are those of the items before [j], and of
    the items up to [j]. *)
Lemma batch_calls_item (userConfig : UserConfig) (total : Z)
    (rest : list ImageInfo) :
  forall (i : Z) (results : list ProcessingResult) (j : nat)
         (imageInfo : ImageInfo),
    rest !! j = Some imageInfo ->
    emissions (batch_effects userConfig total i results rest) !! (2 * j)%nat
      = Some (mkProgress total (i + Z.of_nat j)
                (file_name (info_file imageInfo))
                (results ++ map (item_result userConfig) (take j rest))) /\
    emissions (batch_effects userConfig total i results rest)
      !! (2 * j + 1)%nat
      = Some (mkProgress total (i + Z.of_nat j + 1)
                (file_name (info_file imageInfo))
                (results ++ map (item_result userConfig) (take (S j) rest))).
Proof.
  induction rest as [|first rest IH]; intros i results j imageInfo Hj.
  - discriminate.
  - rewrite emissions_batch_cons. destruct j as [|j].
    + injection Hj as <-. cbn. rewrite app_nil_r, Z.add_0_r. split; reflexivity.
    + cbn in Hj.
      replace (2 * S j)%nat with (S (S (2 * j))) by lia.
      replace (S (S (2 * j)) + 1)%nat with (S (S (2 * j + 1))) by lia.
      destruct (IH (i + 1) (results ++ [item_result userConfig first]) j
                  imageInfo Hj) as [Hbefore Hafter].
      rewrite !lookup_cons. rewrite Hbefore, Hafter. cbn [take map].
      rewrite <- !app_assoc. cbn [app].
      split; do 2 f_equal; lia.
Qed.
End BatchCalls.

(** C3: for a batch of [N] items [processAll] calls the progress callback
    [2 * N] times, for item [i] once before [process] runs on it, with
    [completed = i], and once after, with [completed = i + 1]; the
    [completed] values never decrease; the last call has
    [completed = total = N]; and the returned array has [N] results,
    result [i] being that of item [i]. *)
Theorem processAll_progress {browser : Browser}
    (images : list ImageInfo) (userConfig : UserConfig) :
  let N := length images in
  let calls := emissions (effects (processAll images userConfig)) in
  exists results : list ProcessingResult,
    outcome (processAll images userConfig) = inr results /\
    effects (processAll images userConfig)
      = batch_effects userConfig (Z.of_nat N) 0 [] images /\
    length calls = (2 * N)%nat /\
    (forall (i : nat) (imageInfo : ImageInfo),
       images !! i = Some imageInfo ->
       calls !! (2 * i)%nat
         = Some (mkProgress (Z.of_nat N) (Z.of_nat i)
                   (file_name (info_file imageInfo)) (take i results)) /\
       calls !! (2 * i + 1)%nat
         = Some (mkProgress (Z.of_nat N) (Z.of_nat i + 1)
                   (file_name (info_file imageInfo)) (take (S i) results))) /\
    (forall (j k : nat) (p q : BatchProgress),
       (j <= k)%nat -> calls !! j = Some p -> calls !! k = Some q ->
       progress_completed p <= progress_completed q) /\
    (images = [] \/
     exists p : BatchProgress,
       last calls = Some p /\
       progress_completed p = Z.of_nat N /\ progress_total p = Z.of_nat N) /\
    length results = N /\
    (forall (i : nat) (imageInfo : ImageInfo) (result : ProcessingResult),
       images !! i = Some imageInfo -> results !! i = Some result ->
       originalFile result = info_file imageInfo).
Proof.
  intros N calls. subst calls. unfold processAll.
  rewrite processAll_from_run. cbn [outcome effects fst snd app].
  fold N.
  destruct (emissions_batch_effects userConfig (Z.of_nat N) images 0 [])
    as [Hcounts Htotal].
  set (calls := emissions (batch_effects userConfig (Z.of_nat N) 0 [] images))
    in *.
  fold N in Hcounts.
  exists (map (item_result userConfig) images).
  split; [reflexivity|]. split; [reflexivity|].
  split; [|split; [|split; [|split; [|split]]]].
  - rewrite <- (length_map progress_completed), Hcounts.
    apply completed_counts_length.
  - intros i imageInfo Hi.
    destruct (batch_calls_item userConfig (Z.of_nat N) images 0 [] i
                imageInfo Hi) as [Hbefore Hafter].
    fold calls in Hbefore, Hafter. cbn [app] in Hbefore, Hafter.
    rewrite Z.add_0_l in Hbefore, Hafter.
    rewrite !firstn_map. split; assumption.
  - intros j k p q Hjk Hj Hk.
    apply (completed_counts_monotone N 0 j k); [exact Hjk | |];
      rewrite <- Hcounts;
      change (map progress_completed calls) with (progress_completed <$> calls);
      rewrite list_lookup_fmap; [rewrite Hj | rewrite Hk]; reflexivity.
  - destruct images as [|first rest]; [left; reflexivity | right].
    pose proof (completed_counts_last (length rest) 0) as Hlast.
    change (S (length rest)) with N in Hlast. rewrite <- Hcounts in Hlast.
    change (map progress_completed calls) with (progress_completed <$> calls)
      in Hlast.
    rewrite fmap_last in Hlast.
    destruct (last calls) as [p|] eqn:Hp; [|discriminate].
    exists p. split; [reflexivity|]. split.
    + change (Some (progress_completed p) = Some (0 + Z.of_nat N)) in Hlast.
      injection Hlast as Hlast. lia.
    + apply last_Some_elem_of in Hp.
      rewrite Forall_forall in Htotal. apply Htotal. exact Hp.
  - apply length_map.
  - intros i imageInfo result Hi Hr.
    change (map (item_result userConfig) images)
      with (item_result userConfig <$> images) in Hr.
    rewrite list_lookup_fmap, Hi in Hr. injection Hr as <-.
    apply item_result_originalFile.
Qed.

(** Two pictures: the callback sees [completed] 0, 1, 1, 2. *)
Lemma processAll_progress_example :
  map progress_completed
    (emissions (effects (@processAll (mock_browser 2000000)
       [mkImageInfo (mkFile "a.png" "image/png" 900000) 1000 800 900000
          "blob:1" true;
        mkImageInfo (mkFile "b.jpg" "image/jpeg" 300000) 750 500 300000
          "blob:2" false]
       (mkUserConfig None None None))))
  = [0; 1; 1; 2].
Proof. vm_compute. reflexivity. Qed.

(** ** Output file names *)

(** [lastIndexOf] finds the end of what [before_last_dot] returns. *)
Lemma lastIndexOf_from_spec (s : string) : forall i found : Z,
  lastIndexOf_from "." s i found
  = match before_last_dot s with
    | Some p => i + Z.of_nat (String.length p)
    | None => found
    end.
Proof.
  induction s as [|a s IH]; intros i found; cbn [lastIndexOf_from before_last_dot].
  - reflexivity.
  - rewrite IH. destruct (before_last_dot s) as [p|].
    + cbn [String.length]. lia.
    + destruct (Ascii.eqb a "."); cbn [String.length]; lia.
Qed.

Lemma before_last_dot_prefix (s : string) : forall p : string,
  before_last_dot s = Some p ->
  String.substring 0 (String.length p) s = p /\
  (String.length p < String.length s)%nat.
Proof.
  induction s as [|a s IH]; intros p; cbn [before_last_dot].
  - discriminate.
  - destruct (before_last_dot s) as [p'|].
    + intros [= <-]. destruct (IH p' eq_refl) as [Hsub Hlen].
      cbn [String.length String.substring]. rewrite Hsub. split; [reflexivity | lia].
    + destruct (Ascii.eqb a "."); [|discriminate].
      intros [= <-]. cbn. split; [reflexivity | lia].
Qed.

Lemma substring_empty (s : string) : String.substring 0 0 s = EmptyString.
Proof. destruct s; reflexivity. Qed.

(** The base name of the source: what precedes the last ['.'] when that is
    not empty, else the whole name. *)
Lemma baseName_spec (name : string) :
  baseName name
  = match before_last_dot name with
    | Some (String a p) => String a p
    | Some EmptyString => name
    | None => name
    end.
Proof.
  unfold baseName, lastIndexOf, substring, clamp_index.
  rewrite lastIndexOf_from_spec.
  destruct (before_last_dot name) as [p|] eqn:Hp.
  - destruct (before_last_dot_prefix name p Hp) as [Hsub Hlen].
    replace (Z.to_nat _) with 0%nat by lia.
    replace (Z.to_nat _) with (String.length p) by lia.
    rewrite Hsub. destruct p; reflexivity.
  - replace (Z.to_nat _) with 0%nat by lia.
    replace (Z.to_nat _) with 0%nat by lia.
    rewrite substring_empty. reflexivity.
Qed.

(** [before_last_dot] is [None] exactly on the names without a ['.']. *)
Lemma before_last_dot_None (s : string) :
  before_last_dot s = None <-> ~ In "."%char (list_ascii_of_string s).
Proof.
  induction s as [|a s IH]; cbn [before_last_dot list_ascii_of_string In].
  - tauto.
  - destruct (before_last_dot s) as [p|].
    + split; [discriminate|]. intros Hn. exfalso. apply Hn. right.
      destruct (in_dec Ascii.ascii_dec "."%char (list_ascii_of_string s))
        as [Hin|Hnot]; [exact Hin|].
      apply IH in Hnot. discriminate.
    + destruct (Ascii.eqb_spec a ".") as [->|Hne].
      * split; [discriminate|]. intros Hn. exfalso. apply Hn. left. reflexivity.
      * split; [|reflexivity]. intros _ [Heq|Hin]; [congruence|].
        apply (proj1 IH); [reflexivity | exact Hin].
Qed.

(** What precedes the last ['.'] of [p ++ "." ++ suffix], for a suffix
    without a ['.'], is [p]. *)
Lemma before_last_dot_app (p suffix : string) :
  before_last_dot suffix = None ->
  before_last_dot (p ++ String "." suffix) = Some p.
Proof.
  intros Hsuf. induction p as [|a p IH].
  - change (before_last_dot (String "." suffix) = Some EmptyString).
    cbn [before_last_dot]. rewrite Hsuf. reflexivity.
  - change (before_last_dot (String a (p ++ String "." suffix))
            = Some (String a p)).
    cbn [before_last_dot]. rewrite IH. reflexivity.
Qed.

(** C10, as the code has it: a processed image is named base plus the
    configured extension, where the base is the whole original name when
    that has no ['.'] or has nothing before its last ['.'], and otherwise
    what precedes the last ['.'].  So a name without a ['.'] keeps all of
    its characters. *)
Theorem process_outputFileName {browser : Browser}
    (imageInfo : ImageInfo) (userConfig : UserConfig)
    (result : ProcessingResult) :
  outcome (process imageInfo userConfig) = inr result ->
  wasProcessed result = true ->
  outputFileName result
  = Some (match before_last_dot (file_name (info_file imageInfo)) with
          | Some (String a p) => String a p
          | Some EmptyString => file_name (info_file imageInfo)
          | None => file_name (info_file imageInfo)
          end ++ outputExtension_of userConfig)%string.
Proof.
  unfold process.
  destruct (negb (info_needsProcessing imageInfo) && _ && _).
  - cbn. intros [= <-]. discriminate.
  - destruct (await_load _) as [[e|img] tr1]; cbn; [discriminate|].
    destruct (compress _ _ _) as [[e|blob] tr3]; cbn; [discriminate|].
    destruct blob as [b|]; cbn; [|discriminate].
    intros [= <-] _. rewrite <- baseName_spec. reflexivity.
Qed.

(** A picture named [photo], processed with the default configuration,
    comes out as [photo.jpg]. *)
Lemma process_outputFileName_witness :
  outputFileName
    (item_result (browser := mock_browser 2000000)
       (mkUserConfig None None None)
       (mkImageInfo (mkFile "photo" "image/png" 900000) 1000 800
          900000 "blob:1" true))
  = Some "photo.jpg"%string.
Proof.
  rewrite (@process_outputFileName (mock_browser 2000000)
             (mkImageInfo (mkFile "photo" "image/png" 900000) 1000 800
                900000 "blob:1" true)
             (mkUserConfig None None None)).
  - reflexivity.
  - vm_compute. reflexivity.
  - vm_compute. reflexivity.
Defined.

(** The claim as stated fails on a name whose only ['.'] is its first
    character: what precedes the last ['.'] of [.png] is empty, and the
    code names the output [.png.jpg], not [.jpg]. *)
Lemma process_outputFileName_counterexample :
  ~ (forall (browser : Browser) (imageInfo : ImageInfo)
       (userConfig : UserConfig) (result : ProcessingResult) (p : string),
       outcome (process imageInfo userConfig) = inr result ->
       wasProcessed result = true ->
       before_last_dot (file_name (info_file imageInfo)) = Some p ->
       outputFileName result = Some (p ++ outputExtension_of userConfig)%string).
Proof.
  intros Hclaim.
  specialize (Hclaim (mock_browser 2000000)
    (mkImageInfo (mkFile ".png" "image/png" 900000) 1000 800 900000
       "blob:1" true)
    (mkUserConfig None None None)
    (item_result (browser := mock_browser 2000000)
       (mkUserConfig None None None)
       (mkImageInfo (mkFile ".png" "image/png" 900000) 1000 800 900000
          "blob:1" true))
    EmptyString).
  vm_compute in Hclaim.
  specialize (Hclaim eq_refl eq_refl eq_refl). discriminate.
Qed.

(** ** processAll: failures of single items *)

Section Failures.
Context {browser : Browser}.

(** [processAll] never throws: it returns the result of every item. *)
Lemma processAll_results (images : list ImageInfo) (userConfig : UserConfig) :
  outcome (processAll images userConfig)
  = inr (map (item_result userConfig) images).
Proof. unfold processAll. rewrite processAll_from_run. reflexivity. Qed.

(** An item on which [process] throws gets the failure object: no blob,
    not processed, and as its reason the [message] of what was thrown. *)
Lemma item_result_failure (userConfig : UserConfig) (imageInfo : ImageInfo)
    (thrown : Thrown) :
  outcome (process imageInfo userConfig) = inl thrown ->
  item_result userConfig imageInfo = failure_result imageInfo thrown /\
  processedBlob (item_result userConfig imageInfo) = None /\
  wasProcessed (item_result userConfig imageInfo) = false /\
  error (item_result userConfig imageInfo) = message_of thrown.
Proof.
  intros Hout. unfold item_result. rewrite Hout. repeat split.
Qed.

(** A picture that does not load makes [process] throw the very value
    the [onerror] handler received. *)
Lemma process_load_failure (userConfig : UserConfig) (imageInfo : ImageInfo)
    (ev : Thrown) :
  info_needsProcessing imageInfo = true ->
  loadImage (info_previewUrl imageInfo) = LoadFailed ev ->
  outcome (process imageInfo userConfig) = inl ev.
Proof.
  intros Hnp Hload. unfold process, await_load.
  rewrite Hnp, Hload. reflexivity.
Qed.
End Failures.

(** C4, at a batch of three pictures the second of which does not load:
    the batch goes on and returns three results, and the second is a
    failure object with no blob and [wasProcessed] false, but its failure
    reason is [undefined]: the event the browser passes to [onerror] has
    no [message]. *)
Theorem processAll_broken_image_reason :
  let browser := browser_with_broken_image "blob:2" 2000000 in
  let picture (n : string) (url : string) :=
    mkImageInfo (mkFile n "image/png" 900000) 1000 800 900000 url true in
  let images :=
    [picture "a.png" "blob:1"; picture "b.png" "blob:2";
     picture "c.png" "blob:3"]%string in
  let userConfig := mkUserConfig None None None in
  outcome (process (picture "b.png" "blob:2")%string userConfig)
    = inl (DomEvent "error") /\
  exists first second third : ProcessingResult,
    outcome (processAll images userConfig) = inr [first; second; third] /\
    wasProcessed first = true /\ wasProcessed third = true /\
    processedBlob second = None /\
    wasProcessed second = false /\
    error second = None.
Proof.
  intros browser picture images userConfig. split; [reflexivity|].
  rewrite processAll_results.
  exists (item_result userConfig (picture "a.png" "blob:1")%string),
         (item_result userConfig (picture "b.png" "blob:2")%string),
         (item_result userConfig (picture "c.png" "blob:3")%string).
  split; [reflexivity|]. vm_compute. repeat split.
Qed.

(** By contrast, when the encoder yields [null] the failure reason is
    the message of the [TypeError]. *)
Lemma processAll_null_blob_reason :
  let picture :=
    mkImageInfo (mkFile "a.png" "image/png" 900000) 1000 800 900000
      "blob:1" true in
  exists result : ProcessingResult,
    outcome (@processAll browser_without_encoder [picture]
               (mkUserConfig None None None)) = inr [result] /\
    processedBlob result = None /\
    wasProcessed result = false /\
    error result = Some "Cannot read properties of null (reading 'size')"%string.
Proof.
  intros picture. rewrite processAll_results.
  eexists. split; [reflexivity|]. vm_compute. repeat split.
Qed.

(** ** ZipExporter *)

Section Zip.
Implicit Types (zip : Archive) (files : gmap string BlobValue).

Lemma files_of_zip_folder zip folder :
  files_of (zip_folder folder zip) folder = files_of zip folder.
Proof.
  unfold files_of, zip_folder.
  destruct (zip !! folder) as [files|] eqn:Hf.
  - rewrite Hf. reflexivity.
  - rewrite lookup_insert_eq. reflexivity.
Qed.

Lemma files_of_folder_file zip folder name content :
  files_of (folder_file folder name content zip) folder
  = <[name := content]> (files_of zip folder).
Proof. unfold files_of, folder_file. rewrite lookup_insert_eq. reflexivity. Qed.

(** Adding the results of a folder inserts their entries, one after the
    other, into the files of that folder. *)
Lemma files_of_add_results folder (results : list ProcessingResult) :
  forall zip,
    files_of (fold_left (add_result folder) results zip) folder
    = fold_left (fun files entry => <[entry.1 := entry.2]> files)
        (entries_of results) (files_of zip folder).
Proof.
  induction results as [|result results IH]; intros zip.
  - reflexivity.
  - cbn [fold_left]. rewrite IH. unfold add_result, entries_of.
    cbn [omap list_omap]. fold (entries_of results).
    destruct (processedBlob result) as [blob|].
    + cbn [fold_left fst snd]. rewrite files_of_folder_file. reflexivity.
    + reflexivity.
Qed.

Lemma createZip_files (results : list ProcessingResult) (folderName : string) :
  files_of (createZip results folderName) folderName
  = fold_left (fun files entry => <[entry.1 := entry.2]> files)
      (entries_of results) ∅.
Proof.
  unfold createZip. rewrite files_of_add_results, files_of_zip_folder.
  reflexivity.
Qed.

(** Whatever is in the folder was handed over by a result with a blob. *)
Lemma insert_entries_lookup (entries : list (string * BlobValue)) :
  forall files name content,
    fold_left (fun files entry => <[entry.1 := entry.2]> files) entries files
      !! name = Some content ->
    files !! name = Some content \/ In (name, content) entries.
Proof.
  induction entries as [|[n c] entries IH]; intros files name content;
    cbn [fold_left fst snd In].
  - intros H. left. exact H.
  - intros H. apply IH in H. destruct H as [H|H]; [|right; right; exact H].
    destruct (decide (n = name)) as [->|Hne].
    + rewrite lookup_insert_eq in H. injection H as ->. right. left. reflexivity.
    + rewrite lookup_insert_ne in H by exact Hne. left. exact H.
Qed.

Lemma insert_entries_size (entries : list (string * BlobValue)) :
  forall files,
    (size (fold_left (fun files entry => <[entry.1 := entry.2]> files)
             entries files)
     <= size files + length entries)%nat.
Proof.
  induction entries as [|[n c] entries IH]; intros files;
    cbn [fold_left fst snd length].
  - lia.
  - etransitivity; [apply IH|].
    destruct (files !! n) as [old|] eqn:Hn.
    + rewrite map_size_insert_Some by eauto. lia.
    + rewrite map_size_insert_None by exact Hn. lia.
Qed.

(** With pairwise distinct names, none of them in the folder yet, every
    entry makes the folder one file larger. *)
Lemma insert_entries_size_distinct (entries : list (string * BlobValue)) :
  forall files,
    NoDup (map fst entries) ->
    (forall name, In name (map fst entries) -> files !! name = None) ->
    size (fold_left (fun files entry => <[entry.1 := entry.2]> files)
            entries files)
    = (size files + length entries)%nat.
Proof.
  induction entries as [|[n c] entries IH]; intros files Hnodup Hfresh;
    cbn [fold_left fst snd length map] in *.
  - lia.
  - apply NoDup_cons in Hnodup as [Hnotin Hnodup].
    rewrite IH.
    + rewrite map_size_insert_None by (apply Hfresh; left; reflexivity). lia.
    + exact Hnodup.
    + intros name Hin. rewrite lookup_insert_ne.
      * apply Hfresh. right. exact Hin.
      * intros ->. apply Hnotin. apply list_elem_of_In. exact Hin.
Qed.

(** A result whose [processedBlob] is [null] contributes no entry. *)
Lemma entries_of_blob (results : list ProcessingResult) name content :
  In (name, content) (entries_of results) ->
  exists result,
    In result results /\ processedBlob result = Some content /\
    entry_name result = name.
Proof.
  induction results as [|result results IH]; cbn [entries_of omap list_omap].
  - intros [].
  - fold (entries_of results).
    destruct (processedBlob result) as [blob|] eqn:Hblob.
    + intros [[= <- <-]|Hin].
      * exists result. split; [left; reflexivity | split; [exact Hblob | reflexivity]].
      * destruct (IH Hin) as (r & Hr & Hb & Hn).
        exists r. split; [right; exact Hr | split; assumption].
    + intros Hin. destruct (IH Hin) as (r & Hr & Hb & Hn).
      exists r. split; [right; exact Hr | split; assumption].
Qed.

(** Every file of the archive of [createZip] is the blob of a result,
    under that result's entry name: a [null] blob is never packed. *)
Lemma createZip_entry_origin (results : list ProcessingResult)
    (folderName name : string) (content : BlobValue) :
  files_of (createZip results folderName) folderName !! name = Some content ->
  exists result,
    In result results /\ processedBlob result = Some content /\
    entry_name result = name.
Proof.
  rewrite createZip_files. intros H.
  apply insert_entries_lookup in H. destruct H as [H|H].
  - rewrite lookup_empty in H. discriminate.
  - apply entries_of_blob. exact H.
Qed.

(** The folder never has more files than there are results with a blob,
    and has as many when their entry names are pairwise distinct. *)
Lemma createZip_entry_count (results : list ProcessingResult)
    (folderName : string) :
  (entry_count (createZip results folderName) folderName
   <= length (entries_of results))%nat /\
  (NoDup (map fst (entries_of results)) ->
   entry_count (createZip results folderName) folderName
   = length (entries_of results)).
Proof.
  unfold entry_count. rewrite createZip_files. split.
  - etransitivity; [apply insert_entries_size|].
    rewrite map_size_empty. lia.
  - intros Hnodup. rewrite insert_entries_size_distinct.
    + rewrite map_size_empty. lia.
    + exact Hnodup.
    + intros name _. apply lookup_empty.
Qed.

(** With a single folder [createZipWithFolders] is [createZip]. *)
Lemma createZipWithFolders_single (folderName : string)
    (results : list ProcessingResult) :
  createZipWithFolders [(folderName, results)] = createZip results folderName.
Proof. reflexivity. Qed.
End Zip.

(** C9, at two pictures of one folder, [a.png] and [a.jpeg], processed with
    the default configuration: both results carry a blob and both are
    named [a.jpg], so the second [folder.file] call replaces the entry of
    the first and the archive holds one file for two results. *)
Theorem createZip_name_collision :
  let browser := mock_browser 2000000 in
  let picture (n ty : string) :=
    mkImageInfo (mkFile n ty 900000) 1000 800 900000 "blob:1" true in
  let results :=
    map (item_result (mkUserConfig None None None))
      [picture "a.png" "image/png"; picture "a.jpeg" "image/jpeg"]%string in
  length (entries_of results) = 2%nat /\
  map entry_name results = ["a.jpg"; "a.jpg"]%string /\
  entry_count (createZip results "out") "out" = 1%nat /\
  entry_count (createZipWithFolders [("out"%string, results)]) "out" = 1%nat.
Proof.
  intros browser picture results.
  split; [vm_compute; reflexivity|].
  split; [vm_compute; reflexivity|].
  rewrite createZipWithFolders_single.
  assert (Hcount : entry_count (createZip results "out") "out" = 1%nat).
  { unfold entry_count. rewrite createZip_files.
    replace (entries_of results)
      with [("a.jpg"%string, OfEncoder (mkBlob 818750 "image/jpeg"));
            ("a.jpg"%string, OfEncoder (mkBlob 818750 "image/jpeg"))]
      by (vm_compute; reflexivity).
    cbn [fold_left fst snd]. rewrite insert_insert_eq.
    rewrite map_size_insert_None by apply lookup_empty.
    rewrite map_size_empty. reflexivity. }
  split; exact Hcount.
Qed.

(** * Further properties *)

(** ** compress, whatever the encoder does *)

Section AnyEncoder.
Context {browser : Browser}.

Lemma canvas_toBlob_run (canvas : Canvas) (format : string) (quality : option float) :
  canvas_toBlob canvas format quality
  = (match toBlob canvas format quality with
     | Encoded b => inr (Some b)
     | EncodedNull => inr None
     | EncodeThrew e => inl e
     end,
     [ToBlob canvas format quality]).
Proof.
  unfold canvas_toBlob. destruct (toBlob canvas format quality); reflexivity.
Qed.

(** The loop makes at most one encoder call per round, each at a quality
    between 0.1 and 1, and leaves a lower bound between 0.1 and 1. *)
Lemma compress_rounds_calls (n : nat) (canvas : Canvas) (format : string)
    (budget : Z) : forall (k : nat) (lo hi : float) (best : option Blob),
  (k + n <= 10)%nat ->
  In (lo, hi) (search_bounds k) ->
  (length (effects (compress_rounds n canvas format budget lo hi best)) <= n)%nat /\
  Forall (quality_call canvas format)
    (effects (compress_rounds n canvas format budget lo hi best)) /\
  (forall lo' hi' best',
     outcome (compress_rounds n canvas format budget lo hi best)
       = inr (lo', hi', best') ->
     Number_le 0.1 lo' /\ Number_le lo' 1.0).
Proof.
  induction n as [|n IH]; intros k lo hi best Hk Hin.
  - cbn. split; [lia|]. split; [constructor|].
    intros lo' hi' best' [= <- <- <-].
    destruct (search_bounds_in_range k lo hi ltac:(lia) Hin) as (Hlo & Hhi & _).
    split; assumption.
  - cbn [compress_rounds]. rewrite canvas_toBlob_run.
    destruct (search_bounds_in_range k lo hi ltac:(lia) Hin)
      as (_ & _ & Hmid_lo & Hmid_hi & _).
    pose proof (search_bounds_raise k lo hi Hin) as Hraise.
    pose proof (search_bounds_lower k lo hi Hin) as Hlower.
    set (mid := ((lo + hi) / 2)%float) in *.
    assert (Hcall : quality_call canvas format (ToBlob canvas format (Some mid))).
    { exists mid. split; [reflexivity|]. split; assumption. }
    destruct (toBlob canvas format (Some mid)) as [b| |e].
    + unfold bind, size_of, ret. cbv beta iota.
      destruct (blob_size b <=? budget).
      * destruct (IH (S k) mid hi (Some b) ltac:(lia) Hraise)
          as (Hlen & Hall & Hout).
        destruct (compress_rounds n canvas format budget mid hi (Some b))
          as [r tr]. cbn in *.
        split; [lia|]. split; [constructor; assumption | exact Hout].
      * destruct (IH (S k) lo mid best ltac:(lia) Hlower)
          as (Hlen & Hall & Hout).
        destruct (compress_rounds n canvas format budget lo mid best)
          as [r tr]. cbn in *.
        split; [lia|]. split; [constructor; assumption | exact Hout].
    + cbn. split; [lia|]. split; [repeat constructor; exact Hcall|].
      intros ? ? ? [=].
    + cbn. split; [lia|]. split; [repeat constructor; exact Hcall|].
      intros ? ? ? [=].
Qed.

(** X1: whatever the encoder does (blob, [null] or exception), [compress]
    performs nothing but encoder calls on its canvas and format, at least
    one and at most twelve; for a lossy format every call carries a
    quality between 0.1 and 1, and for ['image/png'] the single call
    carries none. *)
Theorem compress_encoder_calls (canvas : Canvas) (maxSizeKB : Z)
    (format : string) :
  (1 <= length (effects (compress canvas maxSizeKB format)) <= 12)%nat /\
  (if String.eqb format "image/png"
   then effects (compress canvas maxSizeKB format)
        = [ToBlob canvas format None]
   else Forall (quality_call canvas format)
          (effects (compress canvas maxSizeKB format))).
Proof.
  unfold compress. destruct (String.eqb format "image/png").
  - rewrite canvas_toBlob_run. cbn. split; [lia | reflexivity].
  - rewrite canvas_toBlob_run.
    assert (Hfirst : quality_call canvas format
                       (ToBlob canvas format (Some 1.0%float))).
    { exists 1.0%float. split; [reflexivity|]. split; reflexivity. }
    destruct (toBlob canvas format (Some 1.0%float)) as [b| |e].
    + unfold bind, size_of, ret. cbv beta iota.
      destruct (blob_size b <=? maxSizeKB * 1024).
      * cbn. split; [lia | repeat constructor; exact Hfirst].
      * destruct (compress_rounds_calls 10 canvas format (maxSizeKB * 1024)
                    0 0.1 1.0 (Some b)) as (Hlen & Hall & Hout);
          [lia | left; reflexivity |].
        destruct (compress_rounds 10 canvas format (maxSizeKB * 1024)
                    0.1 1.0 (Some b)) as [[e|[[lo hi] best]] tr];
          cbn [effects outcome fst snd] in *.
        -- cbn. split; [lia | constructor; assumption].
        -- destruct (Hout lo hi best eq_refl) as [Hlo Hhi].
           destruct (still_too_big best (maxSizeKB * 1024)).
           ++ rewrite canvas_toBlob_run. cbn.
              rewrite ?app_nil_r, ?length_app. cbn [length].
              split; [lia|]. constructor; [exact Hfirst|].
              apply Forall_app. split; [exact Hall|].
              repeat constructor. exists lo. auto.
           ++ cbn. rewrite ?app_nil_r.
              split; [lia | constructor; assumption].
    + cbn. split; [lia | repeat constructor; exact Hfirst].
    + cbn. split; [lia | repeat constructor; exact Hfirst].
Qed.
End AnyEncoder.

(** ** compress: what the search returns *)

Section SearchResult.
Variables (enc : float -> Blob) (budget : Z).
Hypothesis first_over_budget : budget < blob_size (enc 1.0%float).

(** After [k] rounds the upper bound is a quality whose blob is over
    budget, and the recorded blob, if any, is the one of the lower
    bound. *)
Lemma search_bounds_state (k : nat) :
  let s := spec_state enc budget k in
  budget < blob_size (enc (st_max s)) /\
  (forall b, st_best s = Some b ->
     b = enc (st_min s) /\ blob_size b <= budget) /\
  (st_best s = None -> st_min s = 0.1%float).
Proof.
  induction k as [|k IH].
  - cbn. split; [exact first_over_budget|].
    split; [discriminate | reflexivity].
  - unfold spec_state in *. rewrite Nat.iter_succ.
    set (s := Nat.iter k (spec_round enc budget) spec_initial) in *.
    cbv zeta in IH. destruct IH as (Hover & Hbest & Hnone).
    unfold spec_round, spec_mid.
    destruct (blob_size (enc ((st_min s + st_max s) / 2)%float) <=? budget)
      eqn:Hfit; cbv zeta; cbn [st_min st_max st_best].
    + apply Z.leb_le in Hfit. split; [exact Hover|].
      split; [intros b [= <-]; split; [reflexivity | exact Hfit] | discriminate].
    + apply Z.leb_gt in Hfit. split; [exact Hfit|].
      split; [exact Hbest | exact Hnone].
Qed.
End SearchResult.

(** After ten rounds the bounds are in order and at most 0.00088 apart,
    whichever of the 1024 pairs they are. *)
Lemma search_bounds_close :
  forallb bounds_close (search_bounds 10) = true.
Proof. vm_compute. reflexivity. Qed.

(** X2: for a lossy format and an encoder that yields a blob at every
    quality (monotone or not), [compress] returns a blob that is within
    the budget, or else the blob of its last encode, made at the floor
    quality 0.1. *)
Theorem compress_fits_or_floor {browser : Browser}
    (canvas : Canvas) (maxSizeKB : Z) (format : string)
    (enc : float -> Blob) :
  format <> "image/png"%string ->
  (forall q : float, toBlob canvas format (Some q) = Encoded (enc q)) ->
  exists b : Blob,
    outcome (compress canvas maxSizeKB format) = inr (Some b) /\
    (blob_size b <= maxSizeKB * 1024 \/
     (b = enc 0.1%float /\
      last (effects (compress canvas maxSizeKB format))
        = Some (ToBlob canvas format (Some 0.1%float)))).
Proof.
  intros Hfmt Henc.
  rewrite (compress_lossy canvas format (maxSizeKB * 1024) enc Henc
             maxSizeKB eq_refl Hfmt).
  set (budget := maxSizeKB * 1024).
  destruct (blob_size (enc 1.0%float) <=? budget) eqn:Hfirst.
  - apply Z.leb_le in Hfirst. exists (enc 1.0%float). split; [reflexivity|].
    left. exact Hfirst.
  - pose proof (search_invariant_state budget enc 10) as [Hfit Hfloor].
    generalize dependent (spec_state enc budget 10). intros final.
    generalize (map (fun k => ToBlob canvas format
                       (Some (spec_mid (spec_state enc budget k)))) (seq 0 10)).
    intros calls Hfit Hfloor.
    exists (default (enc (st_min final)) (st_best final)).
    split; [reflexivity|].
    destruct (st_best final) as [b|] eqn:Hbest; cbn [from_option id].
    + left. apply Hfit. reflexivity.
    + right. rewrite (Hfloor eq_refl). split; [reflexivity|].
      cbn [effects snd]. rewrite app_comm_cons. apply last_snoc.
Qed.

Lemma compress_fits_or_floor_witness :
  exists b : Blob,
    outcome (@compress (mock_browser 10000000) (mkCanvas 750 750 "a") 800
               "image/jpeg") = inr (Some b) /\
    (blob_size b <= 800 * 1024 \/ b = mkBlob 1000000 "image/jpeg").
Proof.
  destruct (@compress_fits_or_floor (mock_browser 10000000)
              (mkCanvas 750 750 "a") 800 "image/jpeg"
              (fun q => mkBlob (Math_floor (Number 10000000 * q)%float)
                          "image/jpeg"))
    as (b & Hout & Hcases).
  - discriminate.
  - intros q. reflexivity.
  - exists b. split; [exact Hout|].
    destruct Hcases as [Hfit | [Hb _]]; [left; exact Hfit | right; exact Hb].
Defined.

(** X3: when the blob of quality 1 is over budget, [compress] returns the
    blob of a quality [lo] for which there is a quality [hi], with
    [0.1 <= lo <= hi <= 1] and [hi - lo <= 0.00088] as doubles, whose blob
    is over budget; the returned blob is within budget unless [lo] is the
    floor 0.1.  So the ten rounds locate the edge of the budget to
    0.00088 on the quality axis. *)
Theorem compress_search_resolution {browser : Browser}
    (canvas : Canvas) (maxSizeKB : Z) (format : string)
    (enc : float -> Blob) :
  format <> "image/png"%string ->
  (forall q : float, toBlob canvas format (Some q) = Encoded (enc q)) ->
  maxSizeKB * 1024 < blob_size (enc 1.0%float) ->
  exists lo hi : float,
    outcome (compress canvas maxSizeKB format) = inr (Some (enc lo)) /\
    Number_le 0.1 lo /\ Number_le lo hi /\ Number_le hi 1.0 /\
    Number_le (hi - lo)%float 0.00088 /\
    maxSizeKB * 1024 < blob_size (enc hi) /\
    (blob_size (enc lo) <= maxSizeKB * 1024 \/ lo = 0.1%float).
Proof.
  intros Hfmt Henc Hover.
  rewrite (compress_lossy canvas format (maxSizeKB * 1024) enc Henc
             maxSizeKB eq_refl Hfmt).
  set (budget := maxSizeKB * 1024) in *.
  replace (blob_size (enc 1.0%float) <=? budget) with false
    by (symmetry; apply Z.leb_gt; exact Hover).
  pose proof (search_bounds_state enc budget Hover 10) as Hstate.
  cbv zeta in Hstate.
  pose proof (spec_state_bounds enc budget 10) as Hin.
  generalize dependent (spec_state enc budget 10). intros final.
  generalize (map (fun k => ToBlob canvas format
                     (Some (spec_mid (spec_state enc budget k)))) (seq 0 10)).
  intros calls (Hmax & Hbest & Hnone) Hin.
  destruct (search_bounds_in_range 10 _ _ (le_n 10) Hin)
    as (Hlo & _ & _ & _ & _ & Hhi & _).
  pose proof search_bounds_close as Hclose.
  rewrite List.forallb_forall in Hclose. specialize (Hclose _ Hin).
  unfold bounds_close in Hclose. cbn [fst snd] in Hclose.
  apply andb_true_iff in Hclose as [Horder Hwidth].
  exists (st_min final), (st_max final). cbn [outcome fst].
  split.
  - destruct (st_best final) as [b|]; cbn [from_option id]; [|reflexivity].
    destruct (Hbest b eq_refl) as [-> _]. reflexivity.
  - split; [exact Hlo|]. split; [exact Horder|]. split; [exact Hhi|].
    split; [exact Hwidth|]. split; [exact Hmax|].
    destruct (st_best final) as [b|].
    + left. destruct (Hbest b eq_refl) as [<- Hfit]. exact Hfit.
    + right. apply Hnone. reflexivity.
Qed.

Lemma compress_search_resolution_witness :
  exists lo hi : float,
    outcome (@compress (mock_browser 2000000) (mkCanvas 750 750 "a") 800
               "image/jpeg")
      = inr (Some (mkBlob (Math_floor (Number 2000000 * lo)%float)
                     "image/jpeg")) /\
    Number_le (hi - lo)%float 0.00088.
Proof.
  destruct (@compress_search_resolution (mock_browser 2000000)
              (mkCanvas 750 750 "a") 800 "image/jpeg"
              (fun q => mkBlob (Math_floor (Number 2000000 * q)%float)
                          "image/jpeg"))
    as (lo & hi & Hout & _ & _ & _ & Hw & _).
  - discriminate.
  - intros q. reflexivity.
  - vm_compute. reflexivity.
  - exists lo, hi. split; [exact Hout | exact Hw].
Defined.

(** ** process and processAll, whatever the browser does *)

(** X4: a result returned by [process] always carries a blob and no
    failure reason.  Either it is the skip result (the original file, no
    effect performed), or [wasProcessed] is true, the picture was loaded,
    the final width is 750, the final height [Math.round (h * (750 / w))]
    in doubles, and the blob is the one [compress] returned for that
    canvas with the configured budget and format, [finalSize] being its
    size. *)
Theorem process_result_shape {browser : Browser}
    (imageInfo : ImageInfo) (userConfig : UserConfig)
    (result : ProcessingResult) :
  outcome (process imageInfo userConfig) = inr result ->
  originalFile result = info_file imageInfo /\
  error result = None /\
  ((wasProcessed result = false /\
    processedBlob result = Some (OfFile (info_file imageInfo)) /\
    effects (process imageInfo userConfig) = []) \/
   (wasProcessed result = true /\
    exists (w h newHeight : Z) (b : Blob),
      loadImage (info_previewUrl imageInfo) = Loaded w h /\
      newHeight = Math_round (Number h * (Number 750 / Number w))%float /\
      outcome (compress (mkCanvas 750 newHeight (info_previewUrl imageInfo))
                 (maxSizeKB_of userConfig) (outputFormat_of userConfig))
        = inr (Some b) /\
      finalWidth result = Some 750 /\
      finalHeight result = Some newHeight /\
      processedBlob result = Some (OfEncoder b) /\
      finalSize result = Some (blob_size b))).
Proof.
  unfold process.
  destruct (negb (info_needsProcessing imageInfo) && _ && _).
  - cbn. intros [= <-]. cbn. split; [reflexivity|]. split; [reflexivity|].
    left. repeat split.
  - unfold await_load.
    destruct (loadImage (info_previewUrl imageInfo)) as [w h|ev];
      [|cbn; discriminate].
    unfold resize, CONFIG.maxWidth.
    cbn [bind perform ret naturalWidth naturalHeight img_src].
    set (newHeight := Math_round (Number h * (Number 750 / Number w))%float).
    destruct (compress _ _ _) as [[e|[b|]] tr] eqn:Hc; cbn; try discriminate.
    intros [= <-]. cbn. split; [reflexivity|]. split; [reflexivity|].
    right. split; [reflexivity|].
    exists w, h, newHeight, b. rewrite Hc. repeat split.
Qed.

Lemma process_result_shape_witness :
  processedBlob
    (item_result (browser := mock_browser 2000000)
       (mkUserConfig None None None)
       (mkImageInfo (mkFile "a.png" "image/png" 900000) 1000 800 900000
          "blob:1" true))
  <> None.
Proof.
  destruct (@process_result_shape (mock_browser 2000000)
              (mkImageInfo (mkFile "a.png" "image/png" 900000) 1000 800 900000
                 "blob:1" true)
              (mkUserConfig None None None)
              (item_result (browser := mock_browser 2000000)
                 (mkUserConfig None None None)
                 (mkImageInfo (mkFile "a.png" "image/png" 900000) 1000 800
                    900000 "blob:1" true)))
    as (_ & _ & [(_ & Hblob & _) | (_ & w & h & nh & b & _ & _ & _ & _ & _ & Hblob & _)]).
  - vm_compute. reflexivity.
  - rewrite Hblob. discriminate.
  - rewrite Hblob. discriminate.
Defined.

(** X5: when an item is not skipped and its picture does not load,
    [process] throws the very value the [onerror] handler received, after
    the load attempt and nothing else: nothing is drawn or encoded. *)
Theorem process_load_failure_run {browser : Browser}
    (imageInfo : ImageInfo) (userConfig : UserConfig) (ev : Thrown) :
  (info_needsProcessing imageInfo = true \/
   file_type (info_file imageInfo) <> outputFormat_of userConfig \/
   maxSizeKB_of userConfig * 1024 < info_size imageInfo) ->
  loadImage (info_previewUrl imageInfo) = LoadFailed ev ->
  process imageInfo userConfig = (inl ev, [ImageLoad (info_previewUrl imageInfo)]).
Proof.
  intros Hwork Hload. unfold process.
  replace (negb (info_needsProcessing imageInfo)
           && negb (negb (String.eqb (file_type (info_file imageInfo))
                            (outputFormat_of userConfig)))
           && negb (info_size imageInfo >? maxSizeKB_of userConfig * 1024))
    with false.
  - unfold await_load. rewrite Hload. reflexivity.
  - symmetry. destruct Hwork as [Hnp | [Hty | Hsz]].
    + rewrite Hnp. reflexivity.
    + apply String.eqb_neq in Hty. rewrite Hty. cbn [negb].
      rewrite andb_false_r. reflexivity.
    + replace (info_size imageInfo >? maxSizeKB_of userConfig * 1024)
        with true by (symmetry; apply Z.gtb_lt; exact Hsz).
      apply andb_false_r.
Qed.

Lemma process_load_failure_run_witness :
  @process (browser_with_broken_image "blob:2" 2000000)
    (mkImageInfo (mkFile "b.png" "image/png" 900000) 1000 800 900000
       "blob:2" true)
    (mkUserConfig None None None)
  = (inl (DomEvent "error"), [ImageLoad "blob:2"]).
Proof.
  apply (@process_load_failure_run (browser_with_broken_image "blob:2" 2000000)).
  - left. reflexivity.
  - reflexivity.
Defined.

(** X6: whatever the browser does, [processAll] does not throw.  It
    returns one result per item, in order: the result of [process] when
    that returned one, and otherwise an object with no blob,
    [wasProcessed] false and, as failure reason, the [message] property of
    the thrown value. *)
Theorem processAll_isolates_failures {browser : Browser}
    (images : list ImageInfo) (userConfig : UserConfig) :
  exists results : list ProcessingResult,
    outcome (processAll images userConfig) = inr results /\
    Forall2
      (fun imageInfo result =>
         match outcome (process imageInfo userConfig) with
         | inr processed => result = processed
         | inl thrown =>
             originalFile result = info_file imageInfo /\
             processedBlob result = None /\
             wasProcessed result = false /\
             error result = message_of thrown
         end)
      images results.
Proof.
  exists (map (item_result userConfig) images).
  split; [apply processAll_results|].
  induction images as [|imageInfo images IH]; cbn [map]; constructor.
  - unfold item_result.
    destruct (outcome (process imageInfo userConfig)); [repeat split | reflexivity].
  - exact IH.
Qed.

(** ** resize: sizes and aspect ratio *)

(** X7: a picture that is already 750 wide keeps its height: whatever
    that is when the arithmetic is exact, and for every height up to
    65535 as the source computes it, in doubles. *)
Theorem resize_at_target_width (src : string) (h maxHeight : Z) :
  resize_exact (mkImage src 750 h) CONFIG.maxWidth maxHeight
    = (inr (mkCanvas 750 h src), [DrawImage src 750 h]) /\
  (0 <= h <= 65535 ->
   resize (mkImage src 750 h) CONFIG.maxWidth maxHeight
     = (inr (mkCanvas 750 h src), [DrawImage src 750 h])).
Proof.
  split.
  - unfold resize_exact, CONFIG.maxWidth; cbn [naturalWidth naturalHeight img_src].
    rewrite (round_half_up_scaled h 750 750) by lia.
    replace ((2 * (h * 750) + 750) / (2 * 750)) with h; [reflexivity|].
    apply (Z.div_unique _ _ _ 750); lia.
  - intros Hh.
    assert (Hnear : nearest (h * 750) 750
                      (Math_round (Number h * (Number 750 / Number 750))%float)).
    { apply (heights_nearest_sound 750 [750] (Z_range 0 65536));
        [exact heights_nearest_at_750 | left; reflexivity
        | apply Z_range_In; lia | lia | lia | lia]. }
    unfold resize, CONFIG.maxWidth; cbn [naturalWidth naturalHeight img_src].
    set (H := Math_round _) in *. unfold nearest in Hnear.
    assert (H = h) as -> by lia. reflexivity.
Qed.

Lemma resize_at_target_width_witness :
  resize (mkImage "a.png" 750 600) CONFIG.maxWidth CONFIG.maxHeight
  = (inr (mkCanvas 750 600 "a.png"), [DrawImage "a.png" 750 600]).
Proof.
  apply (resize_at_target_width "a.png" 600 CONFIG.maxHeight). lia.
Defined.

Lemma ratio_bounds_integers (w h H : Z) :
  0 < w -> 0 < h -> w <= 4 * h ->
  nearest (h * 750) w H ->
  50 < H /\ 99 * (w * H) < 75000 * h /\ 75000 * h < 101 * (w * H).
Proof.
  unfold nearest. intros Hw Hh Hr [Hlo Hhi].
  assert (HH : 50 < H) by nia.
  split; [exact HH|]. split; nia.
Qed.

Lemma ratio_bounds_rationals (w h H : Z) :
  0 < w -> 0 < h -> 0 < H ->
  99 * (w * H) < 75000 * h -> 75000 * h < 101 * (w * H) ->
  ((99 # 100) * (inject_Z w / inject_Z h) < 750 / inject_Z H)%Q /\
  (750 / inject_Z H < (101 # 100) * (inject_Z w / inject_Z h))%Q.
Proof.
  intros Hw Hh HH H1 H2.
  assert (Hhq : (0 < inject_Z h)%Q)
    by (change 0%Q with (inject_Z 0); rewrite <- Zlt_Qlt; lia).
  assert (HHq : (0 < inject_Z H)%Q)
    by (change 0%Q with (inject_Z 0); rewrite <- Zlt_Qlt; lia).
  split.
  - apply Qlt_shift_div_l; [exact HHq|].
    setoid_replace ((99 # 100) * (inject_Z w / inject_Z h) * inject_Z H)%Q
      with ((inject_Z (99 * (w * H)) / 100) / inject_Z h)%Q using relation Qeq.
    + apply Qlt_shift_div_r; [exact Hhq|].
      apply Qlt_shift_div_r; [reflexivity|].
      setoid_replace (750 * inject_Z h * 100)%Q with (inject_Z (75000 * h))
        using relation Qeq.
      * rewrite <- Zlt_Qlt. exact H1.
      * rewrite inject_Z_mult. change (inject_Z 75000) with 75000%Q. ring.
    + rewrite !inject_Z_mult. change (inject_Z 99) with 99%Q. field.
      intros E. rewrite E in Hhq. discriminate.
  - apply Qlt_shift_div_r; [exact HHq|].
    setoid_replace ((101 # 100) * (inject_Z w / inject_Z h) * inject_Z H)%Q
      with ((inject_Z (101 * (w * H)) / 100) / inject_Z h)%Q using relation Qeq.
    + apply Qlt_shift_div_l; [exact Hhq|].
      apply Qlt_shift_div_l; [reflexivity|].
      setoid_replace (750 * inject_Z h * 100)%Q with (inject_Z (75000 * h))
        using relation Qeq.
      * rewrite <- Zlt_Qlt. exact H2.
      * rewrite inject_Z_mult. change (inject_Z 75000) with 75000%Q. ring.
    + rewrite !inject_Z_mult. change (inject_Z 101) with 101%Q. field.
      intros E. rewrite E in Hhq. discriminate.
Qed.

(** X8: for a picture at most four times as wide as high, the aspect
    ratio of the canvas, [750 / newHeight], is within one percent of the
    ratio [w / h] of the picture (the tolerance of the repository's
    property test), and the canvas is more than 50 high: for every such
    size when the arithmetic is exact, and for every such size up to
    5000 x 5000 as the source computes it, in doubles. *)
Theorem resize_aspect_ratio (src : string) (w h maxHeight : Z) :
  0 < w -> 0 < h -> w <= 4 * h ->
  (exists newHeight : Z,
     outcome (resize_exact (mkImage src w h) CONFIG.maxWidth maxHeight)
       = inr (mkCanvas 750 newHeight src) /\
     50 < newHeight /\
     ((99 # 100) * (inject_Z w / inject_Z h) < 750 / inject_Z newHeight)%Q /\
     (750 / inject_Z newHeight < (101 # 100) * (inject_Z w / inject_Z h))%Q) /\
  (w <= 5000 -> h <= 5000 ->
   exists newHeight : Z,
     outcome (resize (mkImage src w h) CONFIG.maxWidth maxHeight)
       = inr (mkCanvas 750 newHeight src) /\
     50 < newHeight /\
     ((99 # 100) * (inject_Z w / inject_Z h) < 750 / inject_Z newHeight)%Q /\
     (750 / inject_Z newHeight < (101 # 100) * (inject_Z w / inject_Z h))%Q).
Proof.
  intros Hw Hh Hr. split.
  - destruct (resize_exact_dimensions src w h maxHeight Hw)
      as (H & Heq & Hb).
    exists H. rewrite Heq. split; [reflexivity|].
    assert (Hnear : nearest (h * 750) w H) by (unfold nearest; lia).
    destruct (ratio_bounds_integers w h H Hw Hh Hr Hnear) as (H50 & H1 & H2).
    split; [exact H50|].
    apply ratio_bounds_rationals; [exact Hw | exact Hh | lia | exact H1 | exact H2].
  - intros Hw' Hh'.
    exists (Math_round (Number h * (Number 750 / Number w))%float).
    split; [reflexivity|].
    pose proof (scaled_height_nearest w h ltac:(lia) ltac:(lia)) as Hnear.
    set (H := Math_round _) in *.
    destruct (ratio_bounds_integers w h H Hw Hh Hr Hnear) as (H50 & H1 & H2).
    split; [exact H50|].
    apply ratio_bounds_rationals; [exact Hw | exact Hh | lia | exact H1 | exact H2].
Qed.

Lemma resize_aspect_ratio_witness :
  exists newHeight : Z,
    outcome (resize (mkImage "a.png" 1000 800) CONFIG.maxWidth CONFIG.maxHeight)
      = inr (mkCanvas 750 newHeight "a.png") /\
    50 < newHeight.
Proof.
  destruct (resize_aspect_ratio "a.png" 1000 800 CONFIG.maxHeight)
    as [_ Hcode]; [lia | lia | lia |].
  destruct Hcode as (nh & Hout & H50 & _); [lia | lia |].
  exists nh. split; [exact Hout | exact H50].
Defined.

(** ** ZipExporter: the content of the archive *)

Section ZipContent.
Implicit Types (zip : Archive) (files : gmap string BlobValue).

Lemma zip_folder_lookup zip folder :
  zip_folder folder zip !! folder = Some (files_of zip folder).
Proof.
  unfold zip_folder, files_of.
  destruct (zip !! folder) as [files|] eqn:Hf.
  - rewrite Hf. reflexivity.
  - rewrite lookup_insert_eq. reflexivity.
Qed.

Lemma zip_folder_lookup_ne zip folder other :
  folder <> other -> zip_folder folder zip !! other = zip !! other.
Proof.
  intros Hne. unfold zip_folder.
  destruct (zip !! folder); [reflexivity|].
  apply lookup_insert_ne. exact Hne.
Qed.

(** Adding results to a folder that exists rewrites that folder only. *)
Lemma add_results_insert folder (results : list ProcessingResult) :
  forall zip files,
    zip !! folder = Some files ->
    fold_left (add_result folder) results zip
    = <[folder := fold_left (fun files entry => <[entry.1 := entry.2]> files)
                    (entries_of results) files]> zip.
Proof.
  induction results as [|result results IH]; intros zip files Hf.
  - cbn. symmetry. apply insert_id. exact Hf.
  - cbn [fold_left]. unfold add_result at 2, entries_of.
    cbn [omap list_omap]. fold (entries_of results).
    destruct (processedBlob result) as [blob|].
    + cbn [fold_left fst snd]. unfold folder_file. rewrite Hf. cbn [from_option id].
      rewrite (IH _ (<[entry_name result := blob]> files))
        by apply lookup_insert_eq.
      apply insert_insert_eq.
    + apply IH. exact Hf.
Qed.

Lemma last_blob_named_cons (name : string) (result : ProcessingResult)
    (results : list ProcessingResult) :
  last_blob_named name (result :: results)
  = match last_blob_named name results with
    | Some content => Some content
    | None => if String.eqb (entry_name result) name
              then processedBlob result
              else None
    end.
Proof.
  unfold last_blob_named. cbn [omap list_omap].
  destruct (String.eqb (entry_name result) name).
  - destruct (processedBlob result) as [blob|].
    + rewrite last_cons. destruct (last _); reflexivity.
    + destruct (last _); reflexivity.
  - destruct (last _); reflexivity.
Qed.

Lemma insert_entries_last (results : list ProcessingResult) (name : string) :
  forall files,
    fold_left (fun files entry => <[entry.1 := entry.2]> files)
      (entries_of results) files !! name
    = match last_blob_named name results with
      | Some content => Some content
      | None => files !! name
      end.
Proof.
  induction results as [|result results IH]; intros files.
  - reflexivity.
  - rewrite last_blob_named_cons. unfold entries_of. cbn [omap list_omap].
    fold (entries_of results).
    destruct (processedBlob result) as [blob|] eqn:Hblob.
    + cbn [fold_left fst snd]. rewrite IH.
      destruct (last_blob_named name results); [reflexivity|].
      destruct (String.eqb_spec (entry_name result) name) as [Heq|Hne].
      * rewrite Heq. apply lookup_insert_eq.
      * apply lookup_insert_ne. exact Hne.
    + rewrite IH. destruct (last_blob_named name results); [reflexivity|].
      destruct (String.eqb (entry_name result) name); reflexivity.
Qed.

Lemma insert_entries_size_le (entries : list (string * BlobValue)) :
  forall files,
    (size files
     <= size (fold_left (fun files entry => <[entry.1 := entry.2]> files)
                entries files))%nat.
Proof.
  induction entries as [|[n c] entries IH]; intros files; cbn [fold_left fst snd].
  - lia.
  - etransitivity; [|apply IH].
    destruct (files !! n) as [old|] eqn:Hn.
    + rewrite map_size_insert_Some by eauto. lia.
    + rewrite map_size_insert_None by exact Hn. lia.
Qed.

(** When every entry makes the folder one file larger, no name occurs
    twice and none was in the folder. *)
Lemma insert_entries_size_full (entries : list (string * BlobValue)) :
  forall files,
    size (fold_left (fun files entry => <[entry.1 := entry.2]> files)
            entries files)
    = (size files + length entries)%nat ->
    NoDup (map fst entries) /\
    (forall name, In name (map fst entries) -> files !! name = None).
Proof.
  induction entries as [|[n c] entries IH]; intros files Hsize;
    cbn [fold_left fst snd length map] in *.
  - split; [constructor | intros name []].
  - pose proof (insert_entries_size entries (<[n := c]> files)) as Hle.
    destruct (files !! n) as [old|] eqn:Hn.
    + rewrite map_size_insert_Some in Hle by eauto. lia.
    + rewrite map_size_insert_None in Hle by exact Hn.
      destruct (IH (<[n := c]> files)) as [Hnodup Hfresh].
      { rewrite map_size_insert_None by exact Hn. lia. }
      assert (Hnotin : ~ In n (map fst entries)).
      { intros Hin. specialize (Hfresh n Hin).
        rewrite lookup_insert_eq in Hfresh. discriminate. }
      split.
      * apply NoDup_cons. split; [|exact Hnodup].
        intros Hin. apply Hnotin. apply list_elem_of_In. exact Hin.
      * intros name [<- | Hin]; [exact Hn|].
        specialize (Hfresh name Hin).
        rewrite lookup_insert_ne in Hfresh; [exact Hfresh|].
        intros ->. apply Hnotin. exact Hin.
Qed.
End ZipContent.

(** X9: in the folder of [createZip], each name holds the blob of the
    last result that has a blob and that entry name, and a name that no
    such result has holds nothing: a result without blob adds nothing,
    and of two results of the same name the later one wins. *)
Theorem createZip_archive (results : list ProcessingResult)
    (folderName name : string) :
  files_of (createZip results folderName) folderName !! name
  = last_blob_named name results.
Proof.
  rewrite createZip_files, insert_entries_last, lookup_empty.
  destruct (last_blob_named name results); reflexivity.
Qed.

(** X10: the folder of [createZip] never has more files than there are
    results with a blob, and it has as many exactly when the entry names
    of those results are pairwise distinct. *)
Theorem createZip_count (results : list ProcessingResult)
    (folderName : string) :
  (entry_count (createZip results folderName) folderName
   <= length (entries_of results))%nat /\
  (entry_count (createZip results folderName) folderName
   = length (entries_of results)
   <-> NoDup (map fst (entries_of results))).
Proof.
  unfold entry_count. rewrite createZip_files. split.
  - etransitivity; [apply insert_entries_size|].
    rewrite map_size_empty. lia.
  - split.
    + intros Hsize. apply (insert_entries_size_full (entries_of results) ∅).
      rewrite map_size_empty. exact Hsize.
    + intros Hnodup. rewrite insert_entries_size_distinct.
      * rewrite map_size_empty. lia.
      * exact Hnodup.
      * intros name _. apply lookup_empty.
Qed.

Section ZipFolders.

Lemma createZipWithFolders_from (resultsByFolder : list (string * list ProcessingResult)) :
  forall zip : Archive,
    NoDup (map fst resultsByFolder) ->
    (forall folder, In folder (map fst resultsByFolder) -> zip !! folder = None) ->
    (forall folder results,
       In (folder, results) resultsByFolder ->
       fold_left
         (fun zip entry =>
            fold_left (add_result (fst entry)) (snd entry)
              (zip_folder (fst entry) zip))
         resultsByFolder zip !! folder
       = createZip results folder !! folder) /\
    (forall other,
       ~ In other (map fst resultsByFolder) ->
       fold_left
         (fun zip entry =>
            fold_left (add_result (fst entry)) (snd entry)
              (zip_folder (fst entry) zip))
         resultsByFolder zip !! other
       = zip !! other).
Proof.
  induction resultsByFolder as [|[f rs] rest IH]; intros zip Hnodup Hfresh.
  - split; [intros folder results [] | reflexivity].
  - cbn [map fst] in Hnodup. apply NoDup_cons in Hnodup as [Hnotin Hnodup].
    cbn [fold_left fst snd].
    set (zip' := fold_left (add_result f) rs (zip_folder f zip)).
    assert (Hzip' : zip' = <[f := fold_left
                                (fun files entry => <[entry.1 := entry.2]> files)
                                (entries_of rs) ∅]> (zip_folder f zip)).
    { subst zip'. apply add_results_insert.
      rewrite zip_folder_lookup. unfold files_of.
      rewrite (Hfresh f) by (left; reflexivity). reflexivity. }
    assert (Hcreate : createZip rs f !! f = zip' !! f).
    { rewrite Hzip', lookup_insert_eq. unfold createZip.
      rewrite (add_results_insert f rs _ ∅)
        by (rewrite zip_folder_lookup; reflexivity).
      rewrite lookup_insert_eq. reflexivity. }
    destruct (IH zip' Hnodup) as [Hin Hout].
    { intros folder Hfolder. rewrite Hzip'.
      rewrite lookup_insert_ne.
      - rewrite zip_folder_lookup_ne.
        + apply Hfresh. right. exact Hfolder.
        + intros ->. apply Hnotin. apply list_elem_of_In. exact Hfolder.
      - intros ->. apply Hnotin. apply list_elem_of_In. exact Hfolder. }
    split.
    + intros folder results [[= <- <-] | Hrest].
      * rewrite Hout; [symmetry; exact Hcreate|].
        intros Hf. apply Hnotin. apply list_elem_of_In. exact Hf.
      * apply Hin. exact Hrest.
    + intros other Hother. rewrite Hout.
      * rewrite Hzip'. rewrite lookup_insert_ne.
        -- apply zip_folder_lookup_ne. intros ->. apply Hother. left. reflexivity.
        -- intros ->. apply Hother. left. reflexivity.
      * intros Hf. apply Hother. right. exact Hf.
Qed.
End ZipFolders.

(** X11: for a map of folders whose keys are pairwise distinct, as those
    of a [Map] are, and whose names are plain (no key with a final ['/'],
    no entry name with a ['/'] in it), the files that
    [createZipWithFolders] puts into the folder of a key are those that
    [createZip] puts there from that key's results alone: the folders do
    not interfere. *)
Theorem createZipWithFolders_archive
    (resultsByFolder : list (string * list ProcessingResult)) :
  NoDup (map fst resultsByFolder) ->
  Forall (fun entry => plain_names (fst entry) (snd entry)) resultsByFolder ->
  forall folder results,
    In (folder, results) resultsByFolder ->
    files_of (createZipWithFolders resultsByFolder) folder
    = files_of (createZip results folder) folder.
Proof.
  intros Hnodup _ folder results Hin.
  destruct (createZipWithFolders_from resultsByFolder ∅ Hnodup) as [Hkeys _].
  - intros other _. apply lookup_empty.
  - unfold files_of, createZipWithFolders.
    rewrite (Hkeys folder results Hin). reflexivity.
Qed.

Lemma createZipWithFolders_archive_witness :
  files_of
    (createZipWithFolders
       [("holiday"%string,
         [mkResult (mkFile "a.png" "image/png" 900000)
            (Some (OfEncoder (mkBlob 500000 "image/jpeg")))
            (Some 750) (Some 600) (Some 500000) true (Some "a.jpg"%string)
            None]);
        ("empty"%string, [])])
    "empty"
  = files_of (createZip [] "empty") "empty".
Proof.
  apply (createZipWithFolders_archive
           [("holiday"%string,
             [mkResult (mkFile "a.png" "image/png" 900000)
                (Some (OfEncoder (mkBlob 500000 "image/jpeg")))
                (Some 750) (Some 600) (Some 500000) true
                (Some "a.jpg"%string) None]);
            ("empty"%string, [])]).
  - cbn [map fst]. apply NoDup_cons. split.
    + intros Hin. apply list_elem_of_In in Hin. cbn in Hin.
      destruct Hin as [Heq | []]. discriminate.
    + apply NoDup_singleton.
  - repeat constructor.
  - right. left. reflexivity.
Defined.

(** ** Names and folder paths *)

Lemma baseName_nonempty (name : string) :
  name <> EmptyString -> baseName name <> EmptyString.
Proof.
  intros Hname. rewrite baseName_spec.
  destruct (before_last_dot name) as [[|a p]|]; [exact Hname | discriminate | exact Hname].
Qed.

(** X12: naming is stable.  For a name that is not empty and an extension
    made of a ['.'] and characters without ['.'] (as [.jpg], [.png],
    [.webp], [.avif]), the output name of an output name is that output
    name again: a processed file that is processed once more keeps its
    name. *)
Theorem outputFileName_stable (name suffix : string) :
  name <> EmptyString ->
  before_last_dot suffix = None ->
  (baseName (baseName name ++ String "." suffix) ++ String "." suffix)%string
  = (baseName name ++ String "." suffix)%string.
Proof.
  intros Hname Hsuffix. f_equal.
  rewrite (baseName_spec (baseName name ++ String "." suffix)).
  rewrite (before_last_dot_app (baseName name) suffix Hsuffix).
  pose proof (baseName_nonempty name Hname) as Hbase.
  destruct (baseName name); [congruence | reflexivity].
Qed.

Lemma outputFileName_stable_witness :
  (baseName (baseName "photo.png" ++ ".jpg") ++ ".jpg")%string
  = "photo.jpg"%string.
Proof.
  rewrite (outputFileName_stable "photo.png" "jpg").
  - reflexivity.
  - discriminate.
  - reflexivity.
Defined.

Lemma split_nonempty (s : string) (sep : ascii) : split s sep <> [].
Proof.
  destruct s as [|a s]; cbn [split]; [discriminate|].
  destruct (Ascii.eqb a sep); [discriminate|].
  destruct (split s sep); discriminate.
Qed.

Lemma split_without_separator (s : string) (sep : ascii) :
  ~ In sep (list_ascii_of_string s) -> split s sep = [s].
Proof.
  induction s as [|a s IH]; cbn [split list_ascii_of_string In]; intros Hn.
  - reflexivity.
  - destruct (Ascii.eqb_spec a sep) as [->|Hne]; [exfalso; apply Hn; left; reflexivity|].
    rewrite IH by (intros Hin; apply Hn; right; exact Hin). reflexivity.
Qed.

Lemma split_app (a b : string) (sep : ascii) :
  split (a ++ String sep b) sep = split a sep ++ split b sep.
Proof.
  induction a as [|c a IH].
  - change (split (String sep b) sep = [EmptyString] ++ split b sep).
    cbn [split]. rewrite Ascii.eqb_refl. reflexivity.
  - change (split (String c (a ++ String sep b)) sep
            = split (String c a) sep ++ split b sep).
    cbn [split]. rewrite IH. destruct (Ascii.eqb c sep); [reflexivity|].
    pose proof (split_nonempty a sep) as Hne.
    destruct (split a sep) as [|piece pieces]; [congruence | reflexivity].
Qed.

Lemma join_cons_char (c : ascii) (piece : string) (pieces : list string)
    (sep : string) :
  join (String c piece :: pieces) sep = String c (join (piece :: pieces) sep).
Proof. destruct pieces; reflexivity. Qed.

(** Joining the pieces of a string gives the string back. *)
Lemma join_split (s : string) (sep : ascii) :
  join (split s sep) (String sep EmptyString) = s.
Proof.
  induction s as [|a s IH]; cbn [split].
  - reflexivity.
  - destruct (Ascii.eqb_spec a sep) as [->|Hne].
    + pose proof (split_nonempty s sep) as Hs.
      destruct (split s sep) as [|piece pieces] eqn:Hsplit; [congruence|].
      change (join (EmptyString :: piece :: pieces) (String sep EmptyString))
        with (String sep (join (piece :: pieces) (String sep EmptyString))).
      rewrite IH. reflexivity.
    + pose proof (split_nonempty s sep) as Hs.
      destruct (split s sep) as [|piece pieces] eqn:Hsplit; [congruence|].
      rewrite join_cons_char, IH. reflexivity.
Qed.

(** X13: for a file name without ['/'], the folder path that
    [handleFileInput] derives from the relative path [dir/file] is [dir]
    itself, whatever [dir] is (so folder path, ['/'] and file name give
    the relative path back), and the one it derives from the bare file
    name is the default label. *)
Theorem folderPath_of_relative_path (dir file : string) :
  ~ In "/"%char (list_ascii_of_string file) ->
  folderPath_of (Some (dir ++ String "/" file)%string) = dir /\
  folderPath_of (Some file) = UNCATEGORIZED.
Proof.
  intros Hfile. split.
  - unfold folderPath_of.
    assert (Hpath : or_string (Some (dir ++ String "/" file)%string) EmptyString
                    = (dir ++ String "/" file)%string).
    { destruct dir; reflexivity. }
    rewrite Hpath. cbv zeta.
    rewrite split_app, (split_without_separator file "/" Hfile).
    rewrite length_app. cbn [length].
    pose proof (split_nonempty dir "/") as Hne.
    destruct (split dir "/") as [|piece pieces] eqn:Hsplit; [congruence|].
    replace (1 <? length (piece :: pieces) + 1)%nat with true
      by (symmetry; apply Nat.ltb_lt; cbn [length]; lia).
    rewrite removelast_last, <- Hsplit. apply join_split.
  - unfold folderPath_of.
    assert (Hpath : or_string (Some file) EmptyString = file)
      by (destruct file; reflexivity).
    rewrite Hpath. cbv zeta.
    rewrite (split_without_separator file "/" Hfile). reflexivity.
Qed.

Lemma folderPath_of_relative_path_witness :
  folderPath_of (Some "trip/day1/a.png"%string) = "trip/day1"%string.
Proof.
  apply (folderPath_of_relative_path "trip/day1" "a.png").
  cbn [list_ascii_of_string In]. intros H.
  repeat (destruct H as [H | H]; [discriminate H|]). exact H.
Defined.

(** ** analyze, and analyze followed by process *)

(** X14: [analyze] either resolves to an info object of the file, with the
    file's size, a [needsProcessing] flag that is true exactly when the
    width is not 750 or the size exceeds 800 * 1024, and a preview URL
    that is not revoked; or it rejects with an error that has a message,
    after revoking the preview URL it had created. *)
Theorem analyze_outcome {browser : Browser} (createObjectURL : File -> string)
    (file : File) :
  match analyze createObjectURL file with
  | (inr info, performed) =>
      info_file info = file /\
      info_size info = file_size file /\
      info_previewUrl info = createObjectURL file /\
      (info_needsProcessing info = true
       <-> info_width info <> 750 \/ file_size file > 800 * 1024) /\
      ~ In (RevokeObjectURL (createObjectURL file)) performed
  | (inl thrown, performed) =>
      message_of thrown <> None /\
      last performed = Some (RevokeObjectURL (createObjectURL file))
  end.
Proof.
  unfold analyze.
  destruct (loadImage (createObjectURL file)) as [w h|ev].
  - cbn [info_file info_size info_previewUrl info_needsProcessing info_width].
    split; [reflexivity|]. split; [reflexivity|]. split; [reflexivity|]. split.
    + unfold needsProcessing, CONFIG.maxWidth, CONFIG.maxSizeBytes;
        cbn [info_width info_size].
      rewrite orb_true_iff, negb_true_iff, Z.eqb_neq, Z.gtb_gt. reflexivity.
    + intros [H | [H | []]]; discriminate H.
  - split; [discriminate | reflexivity].
Qed.

Section SkipPath.
Context {browser : Browser}.

(** [process] skips an item exactly when its flag is false, its type is
    the configured format and its size is within the configured budget. *)
Lemma process_skips_iff (imageInfo : ImageInfo) (userConfig : UserConfig)
    (result : ProcessingResult) :
  outcome (process imageInfo userConfig) = inr result ->
  (wasProcessed result = false
   <-> info_needsProcessing imageInfo = false /\
       file_type (info_file imageInfo) = outputFormat_of userConfig /\
       info_size imageInfo <= maxSizeKB_of userConfig * 1024).
Proof.
  unfold process.
  destruct (info_needsProcessing imageInfo) eqn:Hnp;
    destruct (String.eqb_spec (file_type (info_file imageInfo))
                (outputFormat_of userConfig)) as [Hty|Hty];
    destruct (info_size imageInfo >? maxSizeKB_of userConfig * 1024) eqn:Hsz;
    cbn [negb andb];
    try (apply Z.gtb_lt in Hsz);
    try (rewrite Z.gtb_ltb in Hsz; apply Z.ltb_ge in Hsz).
  all: try (destruct (await_load _) as [[e|img] tr1]; cbn; [discriminate|];
            destruct (compress _ _ _) as [[e|[b|]] tr3]; cbn; try discriminate;
            intros [= <-]; cbn; split; [discriminate|];
            intros (H1 & H2 & H3); try discriminate; try contradiction; lia).
  cbn. intros [= <-]. cbn. split; [intros _; repeat split; assumption | reflexivity].
Qed.
End SkipPath.

(** X15: an image that [analyze] has described is returned unprocessed by
    [process] exactly when it is 750 wide, its declared type is the
    configured output format, and its file size exceeds neither
    800 * 1024 bytes nor the configured budget; in every other case a
    result of [process] is a processed one. *)
Theorem analyze_then_process {browser : Browser}
    (createObjectURL : File -> string) (file : File) (info : ImageInfo)
    (userConfig : UserConfig) (result : ProcessingResult) :
  fst (analyze createObjectURL file) = inr info ->
  outcome (process info userConfig) = inr result ->
  (wasProcessed result = false
   <-> info_width info = 750 /\
       file_type file = outputFormat_of userConfig /\
       file_size file <= 800 * 1024 /\
       file_size file <= maxSizeKB_of userConfig * 1024).
Proof.
  intros Hanalyze Hprocess.
  rewrite (process_skips_iff info userConfig result Hprocess).
  unfold analyze in Hanalyze.
  destruct (loadImage (createObjectURL file)) as [w h|ev]; [|discriminate].
  cbn [fst] in Hanalyze. injection Hanalyze as <-.
  cbn [info_needsProcessing info_file info_size info_width].
  unfold needsProcessing, CONFIG.maxWidth, CONFIG.maxSizeBytes;
    cbn [info_width info_size].
  rewrite orb_false_iff, negb_false_iff, Z.eqb_eq, Z.gtb_ltb, Z.ltb_ge.
  tauto.
Qed.

Lemma analyze_then_process_witness :
  wasProcessed
    (item_result (browser := mock_browser 2000000)
       (mkUserConfig None None None)
       (mkImageInfo (mkFile "a.jpg" "image/jpeg" 300000) 1000 800 300000
          "blob:a.jpg" true))
  = false
  <-> 1000 = 750 /\ "image/jpeg"%string = "image/jpeg"%string /\
      300000 <= 800 * 1024 /\ 300000 <= 800 * 1024.
Proof.
  apply (@analyze_then_process (mock_browser 2000000)
           (fun file => ("blob:" ++ file_name file)%string)
           (mkFile "a.jpg" "image/jpeg" 300000)
           (mkImageInfo (mkFile "a.jpg" "image/jpeg" 300000) 1000 800 300000
              "blob:a.jpg" true)
           (mkUserConfig None None None)).
  - reflexivity.
  - vm_compute. reflexivity.
Defined.

(** ** The cost of a batch *)

Section Cost.
Context {browser : Browser}.

Lemma compress_effects_length (canvas : Canvas) (maxSizeKB : Z)
    (format : string) :
  (length (effects (compress canvas maxSizeKB format)) <= 12)%nat.
Proof.
  unfold compress. destruct (String.eqb format "image/png").
  - rewrite canvas_toBlob_run. cbn. lia.
  - rewrite canvas_toBlob_run.
    destruct (toBlob canvas format (Some 1.0%float)) as [b| |e]; [|cbn; lia|cbn; lia].
    unfold bind, size_of, ret. cbv beta iota.
    destruct (blob_size b <=? maxSizeKB * 1024); [cbn; lia|].
    destruct (compress_rounds_calls 10 canvas format (maxSizeKB * 1024)
                0 0.1 1.0 (Some b)) as (Hlen & _ & _);
      [lia | left; reflexivity |].
    destruct (compress_rounds 10 canvas format (maxSizeKB * 1024)
                0.1 1.0 (Some b)) as [[e|[[lo hi] best]] tr];
      cbn [effects outcome fst snd] in *.
    + cbn. lia.
    + destruct (still_too_big best (maxSizeKB * 1024)).
      * rewrite canvas_toBlob_run. cbn.
        rewrite ?app_nil_r, ?length_app. cbn [length]. lia.
      * cbn. rewrite ?app_nil_r. lia.
Qed.

Lemma encodes_length (tr : list Effect) :
  (length (encodes tr) <= length tr)%nat.
Proof.
  induction tr as [|ev tr IH]; [reflexivity|].
  unfold encodes in *. cbn [omap list_omap length].
  destruct ev; cbn [length]; lia.
Qed.

Lemma encodes_app (tr1 tr2 : list Effect) :
  encodes (tr1 ++ tr2) = encodes tr1 ++ encodes tr2.
Proof. apply omap_app. Qed.

(** One item costs at most a load, a draw and twelve encodes. *)
Lemma process_cost (imageInfo : ImageInfo) (userConfig : UserConfig) :
  (length (effects (process imageInfo userConfig)) <= 14)%nat /\
  (length (encodes (effects (process imageInfo userConfig))) <= 12)%nat.
Proof.
  unfold process.
  destruct (negb (info_needsProcessing imageInfo) && _ && _);
    [cbn; split; lia|].
  unfold await_load.
  destruct (loadImage (info_previewUrl imageInfo)) as [w h|ev];
    [|cbn; split; lia].
  unfold resize. cbn [bind perform ret naturalWidth naturalHeight img_src].
  match goal with
  | |- context [compress ?c ?k ?f] =>
      pose proof (compress_effects_length c k f) as Hlen;
      pose proof (encodes_length (effects (compress c k f))) as Henc;
      destruct (compress c k f) as [[e|[b|]] tr]
  end; cbn in *; rewrite ?app_nil_r; split; lia.
Qed.

Lemma batch_effects_cost (userConfig : UserConfig) (total : Z)
    (rest : list ImageInfo) : forall (i : Z) (results : list ProcessingResult),
  (length (batch_effects userConfig total i results rest)
   <= 16 * length rest)%nat /\
  (length (encodes (batch_effects userConfig total i results rest))
   <= 12 * length rest)%nat.
Proof.
  induction rest as [|imageInfo rest IH]; intros i results.
  - cbn. split; lia.
  - cbn [batch_effects length].
    destruct (IH (i + 1) (results ++ [item_result userConfig imageInfo]))
      as [Hall Henc].
    destruct (process_cost imageInfo userConfig) as [Hp Hpe].
    split.
    + rewrite length_app. cbn [length]. lia.
    + change (encodes (?x :: ?l)) with (encodes ([x] ++ l)).
      rewrite !encodes_app, !length_app.
      change (encodes (OnProgress ?p :: ?l)) with (encodes l).
      cbn [encodes omap list_omap length]. fold (encodes (batch_effects userConfig total (i + 1)
             (results ++ [item_result userConfig imageInfo]) rest)).
      lia.
Qed.
End Cost.

(** X16: a batch of [N] items costs at most [12 * N] encoder calls, and
    at most [16 * N] effects in all (per item two progress callbacks, one
    load, one draw and twelve encodes), whatever the browser does. *)
Theorem processAll_cost {browser : Browser}
    (images : list ImageInfo) (userConfig : UserConfig) :
  (length (encodes (effects (processAll images userConfig)))
   <= 12 * length images)%nat /\
  (length (effects (processAll images userConfig))
   <= 16 * length images)%nat.
Proof.
  unfold processAll. rewrite processAll_from_run. cbn [effects snd].
  destruct (batch_effects_cost userConfig (Z.of_nat (length images)) images 0 [])
    as [Hall Henc].
  split; assumption.
Qed.

(** ** startProcessing and downloadZip *)

Section Folders.
Implicit Types (zip : Archive) (files : gmap string BlobValue).
Implicit Types (change : gmap string BlobValue -> gmap string BlobValue).

Lemma files_of_update_folder zip folder change :
  files_of (update_folder folder change zip) folder
  = change (files_of zip folder).
Proof. unfold update_folder, files_of at 1. rewrite lookup_insert_eq. reflexivity. Qed.

Lemma files_of_update_folder_ne zip folder other change :
  folder <> other ->
  files_of (update_folder folder change zip) other = files_of zip other.
Proof.
  intros Hne. unfold update_folder, files_of.
  rewrite lookup_insert_ne by exact Hne. reflexivity.
Qed.

Lemma update_folder_twice zip folder change1 change2 :
  update_folder folder change1 (update_folder folder change2 zip)
  = update_folder folder (fun files => change1 (change2 files)) zip.
Proof.
  unfold update_folder at 1. rewrite files_of_update_folder.
  unfold update_folder. apply insert_insert_eq.
Qed.

Lemma update_folder_comm zip folder other change1 change2 :
  folder <> other ->
  update_folder folder change1 (update_folder other change2 zip)
  = update_folder other change2 (update_folder folder change1 zip).
Proof.
  intros Hne. unfold update_folder at 1 3.
  rewrite files_of_update_folder_ne by congruence.
  rewrite files_of_update_folder_ne by exact Hne.
  unfold update_folder. apply insert_insert_ne. congruence.
Qed.

Lemma zip_folder_update zip folder :
  zip_folder folder zip = update_folder folder (fun files => files) zip.
Proof.
  unfold zip_folder, update_folder, files_of.
  destruct (zip !! folder) as [files|] eqn:Hf.
  - cbn. symmetry. apply insert_id. exact Hf.
  - reflexivity.
Qed.

(** The body of the loop of [createZipWithFolders] for one folder. *)
Lemma folder_step_update zip folder (results : list ProcessingResult) :
  fold_left (add_result folder) results (zip_folder folder zip)
  = update_folder folder (insert_entries (entries_of results)) zip.
Proof.
  rewrite (add_results_insert folder results _ (files_of zip folder))
    by apply zip_folder_lookup.
  rewrite zip_folder_update. unfold update_folder, insert_entries.
  apply insert_insert_eq.
Qed.

Lemma createZipWithFolders_updates (resultsByFolder : ResultsByFolder) :
  forall zip,
    fold_left
      (fun zip entry =>
         fold_left (add_result (fst entry)) (snd entry)
           (zip_folder (fst entry) zip))
      resultsByFolder zip
    = fold_left
        (fun zip entry =>
           update_folder (fst entry) (insert_entries (entries_of (snd entry)))
             zip)
        resultsByFolder zip.
Proof.
  induction resultsByFolder as [|[f rs] rest IH]; intros zip.
  - reflexivity.
  - cbn [fold_left fst snd]. rewrite folder_step_update. apply IH.
Qed.

(** An update of a folder that is not among the keys passes through the
    loop. *)
Lemma updates_pass (resultsByFolder : ResultsByFolder) folder change :
  ~ In folder (map fst resultsByFolder) ->
  forall zip,
    fold_left
      (fun zip entry =>
         update_folder (fst entry) (insert_entries (entries_of (snd entry)))
           zip)
      resultsByFolder (update_folder folder change zip)
    = update_folder folder change
        (fold_left
           (fun zip entry =>
              update_folder (fst entry)
                (insert_entries (entries_of (snd entry))) zip)
           resultsByFolder zip).
Proof.
  induction resultsByFolder as [|[f rs] rest IH]; intros Hnotin zip.
  - reflexivity.
  - cbn [fold_left fst snd map] in *.
    rewrite update_folder_comm by (intros ->; apply Hnotin; left; reflexivity).
    apply IH. intros Hin. apply Hnotin. right. exact Hin.
Qed.

Lemma entries_of_app (results1 results2 : list ProcessingResult) :
  entries_of (results1 ++ results2) = entries_of results1 ++ entries_of results2.
Proof. apply omap_app. Qed.

Lemma push_result_keys folderPath result (resultsByFolder : ResultsByFolder) :
  NoDup (map fst resultsByFolder) ->
  NoDup (map fst (push_result folderPath result resultsByFolder)) /\
  (forall folder,
     In folder (map fst (push_result folderPath result resultsByFolder))
     <-> folder = folderPath \/ In folder (map fst resultsByFolder)).
Proof.
  induction resultsByFolder as [|[f rs] rest IH]; intros Hnodup.
  - cbn. split; [apply NoDup_singleton | intros folder; intuition congruence].
  - cbn [push_result]. cbn [map fst] in Hnodup.
    apply NoDup_cons in Hnodup as [Hnotin Hnodup].
    destruct (String.eqb_spec f folderPath) as [->|Hne].
    + cbn [map fst]. split.
      * apply NoDup_cons. split; assumption.
      * intros folder. cbn [In]. intuition congruence.
    + destruct (IH Hnodup) as [IHnodup IHin]. cbn [map fst]. split.
      * apply NoDup_cons. split; [|exact IHnodup].
        intros Hin. apply list_elem_of_In, IHin in Hin.
        destruct Hin as [Heq | Hin]; [congruence|].
        apply Hnotin, list_elem_of_In. exact Hin.
      * intros folder. cbn [In]. rewrite IHin. intuition congruence.
Qed.

(** Filing one more result adds it to its folder of the archive. *)
Lemma createZipWithFolders_push folderPath result
    (resultsByFolder : ResultsByFolder) :
  NoDup (map fst resultsByFolder) ->
  forall zip,
    fold_left
      (fun zip entry =>
         update_folder (fst entry) (insert_entries (entries_of (snd entry)))
           zip)
      (push_result folderPath result resultsByFolder) zip
    = update_folder folderPath (insert_entries (entries_of [result]))
        (fold_left
           (fun zip entry =>
              update_folder (fst entry)
                (insert_entries (entries_of (snd entry))) zip)
           resultsByFolder zip).
Proof.
  induction resultsByFolder as [|[f rs] rest IH]; intros Hnodup zip.
  - reflexivity.
  - cbn [push_result]. cbn [map fst] in Hnodup.
    apply NoDup_cons in Hnodup as [Hnotin Hnodup].
    destruct (String.eqb_spec f folderPath) as [->|Hne].
    + cbn [fold_left fst snd].
      rewrite <- updates_pass
        by (intros Hin; apply Hnotin, list_elem_of_In; exact Hin).
      rewrite update_folder_twice. f_equal.
      unfold update_folder, insert_entries. f_equal.
      rewrite entries_of_app. apply fold_left_app.
    + cbn [fold_left fst snd]. apply IH. exact Hnodup.
Qed.
End Folders.

Section Grouping.

Lemma createZipWithFolders_group (filed : list (string * ProcessingResult)) :
  forall resultsByFolder : ResultsByFolder,
    NoDup (map fst resultsByFolder) ->
    NoDup (map fst
             (fold_left (fun collected entry =>
                           push_result (fst entry) (snd entry) collected)
                filed resultsByFolder)) /\
    createZipWithFolders
      (fold_left (fun collected entry =>
                    push_result (fst entry) (snd entry) collected)
         filed resultsByFolder)
    = fold_left file_into filed (createZipWithFolders resultsByFolder).
Proof.
  induction filed as [|[f r] filed IH]; intros resultsByFolder Hnodup.
  - split; [exact Hnodup | reflexivity].
  - cbn [fold_left fst snd].
    destruct (push_result_keys f r resultsByFolder Hnodup) as [Hnodup' _].
    destruct (IH (push_result f r resultsByFolder) Hnodup') as [Hkeys Hzip].
    split; [exact Hkeys|]. rewrite Hzip. f_equal.
    unfold createZipWithFolders. rewrite !createZipWithFolders_updates.
    apply createZipWithFolders_push. exact Hnodup.
Qed.

(** Filing the same result twice in a row is filing it once. *)
Lemma file_into_twice (zip : Archive) (entry : string * ProcessingResult) :
  file_into (file_into zip entry) entry = file_into zip entry.
Proof.
  unfold file_into. rewrite update_folder_twice.
  unfold update_folder. f_equal.
  unfold entries_of. cbn [omap list_omap].
  destruct (processedBlob (snd entry)) as [blob|]; [|reflexivity].
  unfold insert_entries. cbn [fold_left fst snd]. apply insert_insert_eq.
Qed.

Lemma file_into_twice_but_last (filed : list (string * ProcessingResult)) :
  forall zip : Archive,
    fold_left file_into (twice_but_last filed) zip
    = fold_left file_into filed zip.
Proof.
  induction filed as [|entry filed IH]; intros zip.
  - reflexivity.
  - destruct filed as [|next filed]; [reflexivity|].
    change (twice_but_last (entry :: next :: filed))
      with (entry :: entry :: twice_but_last (next :: filed)).
    cbn [fold_left]. rewrite file_into_twice.
    rewrite (IH (file_into zip entry)). reflexivity.
Qed.

Lemma twice_but_last_length {A} (l : list A) :
  length (twice_but_last l) = (2 * length l - 1)%nat.
Proof.
  induction l as [|x l IH]; [reflexivity|].
  destruct l as [|y l]; [reflexivity|].
  change (twice_but_last (x :: y :: l)) with (x :: x :: twice_but_last (y :: l)).
  cbn [length] in *. lia.
Qed.
End Grouping.

Section Collecting.
Context {browser : Browser}.

Lemma collect_results_failed (all : list ImportedImage)
    (calls : list BatchProgress) :
  fold_left
    (fun collected progress =>
       match collected with
       | Some resultsByFolder => collect_result all resultsByFolder progress
       | None => None
       end)
    calls None = None.
Proof. induction calls as [|p calls IH]; [reflexivity | exact IH]. Qed.

Lemma collect_results_cons (all : list ImportedImage) (p : BatchProgress)
    (calls : list BatchProgress) (collected : ResultsByFolder) :
  collect_results all (p :: calls) collected
  = match collect_result all collected p with
    | Some collected' => collect_results all calls collected'
    | None => None
    end.
Proof.
  unfold collect_results. cbn [fold_left].
  destruct (collect_result all collected p); [reflexivity|].
  apply collect_results_failed.
Qed.

(** The call before an item files the result of the item before it
    again, if there is one. *)
Lemma collect_before (userConfig : UserConfig) (total : Z)
    (done rest : list ImportedImage) (current : string)
    (collected : ResultsByFolder) :
  collect_result (done ++ rest) collected
    (mkProgress total (Z.of_nat (length done)) current
       (map (item_result userConfig) (map imported_info done)))
  = Some (fold_left
            (fun collected entry =>
               push_result (fst entry) (snd entry) collected)
            (match last done with
             | Some previous => [filed_result userConfig previous]
             | None => []
             end)
            collected).
Proof.
  unfold collect_result. cbn [progress_completed progress_results].
  induction done as [|previous before _] using rev_ind; [reflexivity|].
  rewrite last_snoc, length_app. cbn [length].
  replace (0 <? Z.of_nat (length before + 1)) with true
    by (symmetry; apply Z.ltb_lt; lia).
  replace (Z.to_nat (Z.of_nat (length before + 1) - 1)) with (length before)
    by lia.
  rewrite !map_app. cbn [map].
  rewrite (list_lookup_middle _ [] _ (length before))
    by (rewrite !length_map; reflexivity).
  rewrite <- app_assoc. cbn [app].
  rewrite (list_lookup_middle before rest previous (length before))
    by reflexivity.
  reflexivity.
Qed.

(** The call after an item files the result of that item. *)
Lemma collect_after (userConfig : UserConfig) (total : Z)
    (done rest : list ImportedImage) (image : ImportedImage)
    (current : string) (collected : ResultsByFolder) :
  collect_result (done ++ image :: rest) collected
    (mkProgress total (Z.of_nat (length done) + 1) current
       (map (item_result userConfig) (map imported_info done)
        ++ [item_result userConfig (imported_info image)]))
  = Some (push_result (folder_label image)
            (item_result userConfig (imported_info image)) collected).
Proof.
  unfold collect_result. cbn [progress_completed progress_results].
  replace (0 <? Z.of_nat (length done) + 1) with true
    by (symmetry; apply Z.ltb_lt; lia).
  replace (Z.to_nat (Z.of_nat (length done) + 1 - 1)) with (length done) by lia.
  rewrite (list_lookup_middle _ [] _ (length done))
    by (rewrite !length_map; reflexivity).
  rewrite (list_lookup_middle done rest image (length done)) by reflexivity.
  reflexivity.
Qed.

(** Over the calls of a batch the callback files every result twice,
    except the last one. *)
Lemma collect_batch (userConfig : UserConfig) (total : Z)
    (rest : list ImportedImage) :
  forall (done : list ImportedImage) (collected : ResultsByFolder),
    collect_results (done ++ rest)
      (emissions
         (batch_effects userConfig total (Z.of_nat (length done))
            (map (item_result userConfig) (map imported_info done))
            (map imported_info rest)))
      collected
    = Some (fold_left
              (fun collected entry =>
                 push_result (fst entry) (snd entry) collected)
              (match rest, last done with
               | _ :: _, Some previous => [filed_result userConfig previous]
               | _, _ => []
               end
               ++ twice_but_last (map (filed_result userConfig) rest))
              collected).
Proof.
  induction rest as [|image rest IH]; intros done collected.
  - reflexivity.
  - cbn [map]. rewrite emissions_batch_cons.
    rewrite collect_results_cons, collect_before.
    rewrite collect_results_cons, collect_after.
    specialize (IH (done ++ [image])).
    rewrite <- app_assoc in IH. cbn [app] in IH.
    rewrite length_app, Nat2Z.inj_add in IH. cbn [length] in IH.
    change (Z.of_nat 1) with 1 in IH.
    rewrite !map_app in IH. cbn [map] in IH.
    rewrite IH. f_equal. rewrite last_snoc.
    rewrite fold_left_app.
    destruct rest as [|next rest].
    + cbn [map twice_but_last app fold_left]. unfold filed_result at 2.
      destruct (last done); reflexivity.
    + change (twice_but_last (map (filed_result userConfig) (image :: next :: rest)))
        with (filed_result userConfig image :: filed_result userConfig image
              :: twice_but_last (map (filed_result userConfig) (next :: rest))).
      cbn [fold_left app]. unfold filed_result at 2 4. cbn [fst snd].
      destruct (last done); reflexivity.
Qed.
End Collecting.

Section Download.

Lemma push_result_count folderPath result (resultsByFolder : ResultsByFolder) :
  length (concat (map snd (push_result folderPath result resultsByFolder)))
  = S (length (concat (map snd resultsByFolder))).
Proof.
  induction resultsByFolder as [|[f rs] rest IH]; [reflexivity|].
  cbn [push_result]. destruct (String.eqb f folderPath); cbn [map snd concat].
  - rewrite !length_app. cbn [length]. lia.
  - rewrite !length_app, IH. lia.
Qed.

Lemma group_results_count (filed : list (string * ProcessingResult)) :
  forall resultsByFolder : ResultsByFolder,
    length (concat (map snd
              (fold_left (fun collected entry =>
                            push_result (fst entry) (snd entry) collected)
                 filed resultsByFolder)))
    = (length (concat (map snd resultsByFolder)) + length filed)%nat.
Proof.
  induction filed as [|[f r] filed IH]; intros resultsByFolder;
    cbn [fold_left fst snd length].
  - lia.
  - rewrite IH, push_result_count. lia.
Qed.

Lemma createZip_lookup_folder (results : list ProcessingResult)
    (folderName : string) :
  createZip results folderName !! folderName
  = Some (insert_entries (entries_of results) ∅).
Proof.
  unfold createZip.
  rewrite (add_results_insert folderName results _ ∅)
    by (rewrite zip_folder_lookup; reflexivity).
  apply lookup_insert_eq.
Qed.

(** The folder of an archive after filing results one by one: the
    results filed under that folder, inserted in order. *)
Lemma file_into_lookup (folder : string)
    (filed : list (string * ProcessingResult)) :
  forall zip : Archive,
    fold_left file_into filed zip !! folder
    = match map snd (List.filter (fun entry => String.eqb (fst entry) folder)
                       filed) with
      | [] => zip !! folder
      | here =>
          Some (insert_entries (entries_of here) (files_of zip folder))
      end.
Proof.
  induction filed as [|[f r] filed IH]; intros zip.
  - reflexivity.
  - cbn [fold_left List.filter fst]. rewrite IH.
    destruct (String.eqb_spec f folder) as [->|Hne].
    + cbn [map snd]. unfold file_into at 1 2. cbn [fst snd].
      rewrite files_of_update_folder.
      destruct (map snd (List.filter _ filed)) as [|next here].
      * unfold update_folder. rewrite lookup_insert_eq. reflexivity.
      * f_equal. change (r :: next :: here) with ([r] ++ next :: here).
        rewrite (entries_of_app [r]). unfold insert_entries.
        rewrite fold_left_app. reflexivity.
    + unfold file_into at 1 2. cbn [fst snd].
      rewrite files_of_update_folder_ne by exact Hne.
      unfold update_folder. rewrite lookup_insert_ne by exact Hne.
      reflexivity.
Qed.
End Download.

(** X17: in [startProcessing] the progress callback files every result
    twice under its folder in [resultsByFolder], except the result of the
    last image, which it files once: once on the call after an image and
    once more on the call before the next image.  The callback never
    fails, the keys stay pairwise distinct, and the archive that
    [createZipWithFolders] builds from this map is the same as the one
    built from every result filed once. *)
Theorem startProcessing_files_twice {browser : Browser}
    (images : list ImportedImage) (userConfig : UserConfig) :
  exists resultsByFolder : ResultsByFolder,
    startProcessing images userConfig
      = Some (map (item_result userConfig) (map imported_info images),
              resultsByFolder) /\
    resultsByFolder
      = group_results (twice_but_last (map (filed_result userConfig) images)) /\
    length (concat (map snd resultsByFolder)) = (2 * length images - 1)%nat /\
    NoDup (map fst resultsByFolder) /\
    createZipWithFolders resultsByFolder
      = createZipWithFolders
          (group_results (map (filed_result userConfig) images)).
Proof.
  exists (group_results (twice_but_last (map (filed_result userConfig) images))).
  split; [|split; [reflexivity | split; [|split]]].
  - unfold startProcessing, processAll.
    rewrite processAll_from_run. cbn [outcome effects fst snd app].
    rewrite length_map.
    pose proof (collect_batch userConfig (Z.of_nat (length images)) images
                  [] []) as Hcollect.
    cbn [app length map last] in Hcollect.
    change (Z.of_nat 0) with 0 in Hcollect.
    assert (Hprefix : match images with
                      | [] => @nil (string * ProcessingResult)
                      | _ :: _ => []
                      end = []) by (destruct images; reflexivity).
    rewrite Hprefix in Hcollect. cbn [app] in Hcollect.
    rewrite Hcollect. reflexivity.
  - unfold group_results. rewrite group_results_count.
    rewrite twice_but_last_length, length_map. cbn [map concat length]. lia.
  - apply (createZipWithFolders_group
             (twice_but_last (map (filed_result userConfig) images)) []).
    constructor.
  - unfold group_results.
    destruct (createZipWithFolders_group
                (twice_but_last (map (filed_result userConfig) images)) [])
      as [_ Htwice]; [constructor|].
    destruct (createZipWithFolders_group
                (map (filed_result userConfig) images) [])
      as [_ Honce]; [constructor|].
    rewrite Htwice, Honce. apply file_into_twice_but_last.
Qed.

(** X18: take images whose folder labels (the folder path of an image,
    or the default label when that is empty) and whose entry names are
    plain.  In the archive that [downloadZip] builds after
    [startProcessing], the files of any folder are those that [createZip]
    puts there from the results of the images of that label, in order:
    filing results twice and sharing the archive with other folders
    changes nothing. *)
Theorem downloadZip_archive {browser : Browser}
    (images : list ImportedImage) (userConfig : UserConfig)
    (folder : string) :
  Forall (fun image =>
            plain_names (folder_label image)
              [item_result userConfig (imported_info image)])
    images ->
  exists resultsByFolder : ResultsByFolder,
    option_map snd (startProcessing images userConfig) = Some resultsByFolder /\
    files_of (createZipWithFolders resultsByFolder) folder
    = files_of
        (createZip
           (map snd
              (List.filter (fun entry => String.eqb (fst entry) folder)
                 (map (filed_result userConfig) images)))
           folder)
        folder.
Proof.
  intros _.
  exists (group_results (twice_but_last (map (filed_result userConfig) images))).
  split.
  - unfold startProcessing, processAll.
    rewrite processAll_from_run. cbn [outcome effects fst snd app].
    rewrite length_map.
    pose proof (collect_batch userConfig (Z.of_nat (length images)) images
                  [] []) as Hcollect.
    cbn [app length map last] in Hcollect.
    change (Z.of_nat 0) with 0 in Hcollect.
    assert (Hprefix : match images with
                      | [] => @nil (string * ProcessingResult)
                      | _ :: _ => []
                      end = []) by (destruct images; reflexivity).
    rewrite Hprefix in Hcollect. cbn [app] in Hcollect.
    rewrite Hcollect. reflexivity.
  - unfold group_results.
    destruct (createZipWithFolders_group
                (twice_but_last (map (filed_result userConfig) images)) [])
      as [_ Htwice]; [constructor|].
    rewrite Htwice, file_into_twice_but_last.
    unfold files_of at 1. rewrite file_into_lookup.
    rewrite createZip_files.
    destruct (map snd (List.filter _ _)) as [|first here].
    + reflexivity.
    + reflexivity.
Qed.

(** Two pictures of the folder [trip/day1] and one without folder. *)
Lemma downloadZip_archive_witness :
  exists resultsByFolder : ResultsByFolder,
    option_map snd
      (startProcessing (browser := mock_browser 2000000)
         [mkImported
            (mkImageInfo (mkFile "a.png" "image/png" 900000) 1000 800 900000
               "blob:1" true) "trip/day1";
          mkImported
            (mkImageInfo (mkFile "b.png" "image/png" 900000) 1000 800 900000
               "blob:2" true) "";
          mkImported
            (mkImageInfo (mkFile "c.png" "image/png" 900000) 1000 800 900000
               "blob:3" true) "trip/day1"]
         (mkUserConfig None None None))
    = Some resultsByFolder /\
    entry_count (createZipWithFolders resultsByFolder) "trip/day1" = 2%nat.
Proof.
  destruct (@downloadZip_archive (mock_browser 2000000)
              [mkImported
                 (mkImageInfo (mkFile "a.png" "image/png" 900000) 1000 800
                    900000 "blob:1" true) "trip/day1";
               mkImported
                 (mkImageInfo (mkFile "b.png" "image/png" 900000) 1000 800
                    900000 "blob:2" true) "";
               mkImported
                 (mkImageInfo (mkFile "c.png" "image/png" 900000) 1000 800
                    900000 "blob:3" true) "trip/day1"]
              (mkUserConfig None None None) "trip/day1")
    as (resultsByFolder & Hstart & Hfiles).
  - repeat constructor.
  - exists resultsByFolder. split; [exact Hstart|].
    unfold entry_count. rewrite Hfiles. vm_compute. reflexivity.
Defined.

(** ** process: the size of what it returns *)

Lemma process_finalSize {browser : Browser}
    (imageInfo : ImageInfo) (userConfig : UserConfig)
    (result : ProcessingResult) :
  outcome (process imageInfo userConfig) = inr result ->
  (finalSize result = Some (info_size imageInfo) /\
   info_size imageInfo <= maxSizeKB_of userConfig * 1024) \/
  (exists (canvas : Canvas) (b : Blob),
     outcome (compress canvas (maxSizeKB_of userConfig)
                (outputFormat_of userConfig)) = inr (Some b) /\
     finalSize result = Some (blob_size b)).
Proof.
  unfold process.
  destruct (negb (info_needsProcessing imageInfo) && _ && _) eqn:Hskip.
  - cbn. intros [= <-]. left. split; [reflexivity|].
    apply andb_prop in Hskip as [_ Hsz]. apply negb_true_iff in Hsz.
    rewrite Z.gtb_ltb in Hsz. apply Z.ltb_ge in Hsz. exact Hsz.
  - unfold await_load.
    destruct (loadImage (info_previewUrl imageInfo)) as [w h|ev];
      [|cbn; discriminate].
    unfold resize. cbn [bind perform ret naturalWidth naturalHeight img_src].
    match goal with
    | |- context [compress ?c ?k ?f] =>
        destruct (compress c k f) as [[e|[b|]] tr] eqn:Hc
    end; cbn; try discriminate.
    intros [= <-]. right. eexists _, b. rewrite Hc. split; reflexivity.
Qed.

(** X19: take a configuration whose output format is lossy, and a browser
    whose encoder yields at every quality a blob, the one of quality 0.1
    within the configured budget.  Then every result that [process]
    returns, skipped or processed, has a [finalSize] within the budget. *)
Theorem process_within_budget {browser : Browser}
    (enc : Canvas -> float -> Blob)
    (imageInfo : ImageInfo) (userConfig : UserConfig)
    (result : ProcessingResult) :
  outputFormat_of userConfig <> "image/png"%string ->
  (forall (canvas : Canvas) (q : float),
     toBlob canvas (outputFormat_of userConfig) (Some q)
     = Encoded (enc canvas q)) ->
  (forall canvas : Canvas,
     blob_size (enc canvas 0.1%float) <= maxSizeKB_of userConfig * 1024) ->
  outcome (process imageInfo userConfig) = inr result ->
  exists size : Z,
    finalSize result = Some size /\ size <= maxSizeKB_of userConfig * 1024.
Proof.
  intros Hfmt Henc Hfloor Hout.
  destruct (process_finalSize imageInfo userConfig result Hout)
    as [[Hsize Hle] | (canvas & b & Hc & Hsize)].
  - exists (info_size imageInfo). split; assumption.
  - exists (blob_size b). split; [exact Hsize|].
    rewrite (compress_lossy canvas (outputFormat_of userConfig)
               (maxSizeKB_of userConfig * 1024) (enc canvas) (Henc canvas)
               (maxSizeKB_of userConfig) eq_refl Hfmt) in Hc.
    pose proof (search_invariant_state (maxSizeKB_of userConfig * 1024)
                  (enc canvas) 10) as [Hfit Hmin].
    specialize (Hfloor canvas).
    destruct (blob_size (enc canvas 1.0%float) <=? maxSizeKB_of userConfig * 1024)
      eqn:Hfirst.
    + injection Hc as <-. apply Z.leb_le. exact Hfirst.
    + cbn [outcome fst] in Hc. revert Hc Hfit Hmin.
      generalize (spec_state (enc canvas) (maxSizeKB_of userConfig * 1024) 10).
      intros final Hc Hfit Hmin.
      destruct (st_best final) as [b'|]; cbn [from_option id] in Hc;
        injection Hc as <-.
      * apply Hfit. reflexivity.
      * rewrite (Hmin eq_refl). exact Hfloor.
Qed.

Lemma process_within_budget_witness :
  exists size : Z,
    finalSize
      (item_result (browser := mock_browser 2000000)
         (mkUserConfig None None None)
         (mkImageInfo (mkFile "a.png" "image/png" 900000) 1000 800 900000
            "blob:1" true))
    = Some size /\
    size <= 800 * 1024.
Proof.
  apply (@process_within_budget (mock_browser 2000000)
           (fun _ q => mkBlob (Math_floor (Number 2000000 * q)%float)
                         "image/jpeg")
           (mkImageInfo (mkFile "a.png" "image/png" 900000) 1000 800 900000
              "blob:1" true)
           (mkUserConfig None None None)).
  - discriminate.
  - intros canvas q. reflexivity.
  - intros canvas. vm_compute. discriminate.
  - vm_compute. reflexivity.
Defined.
